(** * data_loader: loaders for prices, demand and fuel attributes

    A shallow embedding of [src/data_loader.py].  The loaders are written
    against pandas (2.2, nanosecond timestamps); the parts of pandas they
    call (label slicing of a [DatetimeIndex], the [MonthEnd] and [Hour]
    offsets, [resample] with [mean] and [sum]) are embedded here as far as
    the loaders use them.

    - A timestamp is the integer pandas stores: nanoseconds since
      1970-01-01T00:00, timezone-naive (for demand, after the conversion
      to UTC).  [None] stands for [NaT], which the loaders only meet as
      the minimum or maximum of a file without rows.
    - A parsed CSV file is a header and rows of raw text cells; the first
      column of a time-series file is the already parsed timestamp.  The
      [start] and [end] arguments are timestamps, already parsed as well.
    - Column names are ASCII text.
    - Cell arithmetic is kept abstract (class [Number]): the statements
      below hold for any number type and never rely on rounding.
    - Every failure of a loader is a [ValueError] in the source; the
      raise sites are told apart and grouped into the kinds the
      specification names. *)

From Stdlib Require Import ZArith QArith Lia Ascii String.
From stdpp Require Import base option list gmap strings sorting.

Local Open Scope Z_scope.

(** ** Calendar *)

Abbreviation Timestamp := Z.

Definition NS_PER_HOUR : Z := 3600 * 1000000000.
Definition NS_PER_DAY : Z := 24 * NS_PER_HOUR.

Definition is_leap_year (y : Z) : bool :=
  (y mod 4 =? 0) && (negb (y mod 100 =? 0) || (y mod 400 =? 0)).

Definition days_in_month (y m : Z) : Z :=
  if m =? 2 then (if is_leap_year y then 29 else 28)
  else if (m =? 4) || (m =? 6) || (m =? 9) || (m =? 11) then 30
  else 31.

(** Day number of a proleptic Gregorian date, 1970-01-01 being day 0. *)
Definition days_from_civil (y m d : Z) : Z :=
  let y' := if m <=? 2 then y - 1 else y in
  let era := y' / 400 in
  let yoe := y' - era * 400 in
  let mp := if 2 <? m then m - 3 else m + 9 in
  let doy := (153 * mp + 2) / 5 + d - 1 in
  let doe := yoe * 365 + yoe / 4 - yoe / 100 + doy in
  era * 146097 + doe - 719468.

(** The date (year, month, day) of a day number.  Days are counted in
    eras of 400 years (146097 days) that start on a first of March; within
    an era, [year_of_era] and [month_of_year] locate the day ([doe] is the
    day of the era, [doy] the day of the year, March being month 0). *)
Definition year_of_era (doe : Z) : Z :=
  (doe - doe / 1460 + doe / 36524 - doe / 146096) / 365.

Definition day_of_year (doe : Z) : Z :=
  let yoe := year_of_era doe in
  doe - (365 * yoe + yoe / 4 - yoe / 100).

Definition month_of_year (doy : Z) : Z := (5 * doy + 2) / 153.

Definition civil_from_days (z : Z) : Z * Z * Z :=
  let z' := z + 719468 in
  let era := z' / 146097 in
  let doe := z' - era * 146097 in
  let yoe := year_of_era doe in
  let doy := day_of_year doe in
  let mp := month_of_year doy in
  let d := doy - (153 * mp + 2) / 5 + 1 in
  let m := if mp <? 10 then mp + 3 else mp - 9 in
  let y := yoe + era * 400 in
  (if m <=? 2 then y + 1 else y, m, d).

Definition ts_date (t : Timestamp) : Z * Z * Z := civil_from_days (t / NS_PER_DAY).
Definition ts_time (t : Timestamp) : Z := t mod NS_PER_DAY.

(** [pd.Timestamp(year, month, day, hour)] *)
Definition mk_ts (y m d h : Z) : Timestamp :=
  days_from_civil y m d * NS_PER_DAY + h * NS_PER_HOUR.

(** [stamp.replace(year=, month=, day=)]: the time of day is kept. *)
Definition ts_replace_date (t : Timestamp) (y m d : Z) : Timestamp :=
  days_from_civil y m d * NS_PER_DAY + ts_time t.

(** pandas [roll_convention(other, n, compare)] *)
Definition roll_convention (other n compare : Z) : Z :=
  if (0 <? n) && (other <? compare) then n - 1
  else if (n <=? 0) && (compare <? other) then n + 1
  else n.

(** pandas [shift_month(stamp, months, day_opt="end")] *)
Definition shift_month_end (t : Timestamp) (months : Z) : Timestamp :=
  let '(y, m, _) := ts_date t in
  let dy := (m + months) / 12 in
  let month := (m + months) mod 12 in
  let '(month, dy) := if month =? 0 then (12, dy - 1) else (month, dy) in
  let year := y + dy in
  ts_replace_date t year month (days_in_month year month).

(** [t + pd.offsets.MonthEnd(n)] *)
Definition MonthEnd (n : Z) (t : Timestamp) : Timestamp :=
  let '(y, m, d) := ts_date t in
  shift_month_end t (roll_convention d n (days_in_month y m)).

(** [t + pd.offsets.Hour(n)] *)
Definition Hour (n : Z) (t : Timestamp) : Timestamp := t + n * NS_PER_HOUR.

(** Months elapsed since the start of the era, for a day of the era. *)
Definition era_month (doe : Z) : Z :=
  12 * year_of_era doe + month_of_year (day_of_year doe).

(** A scan of [n] consecutive days of an era from [doe] on: the year and
    month stay in range and the month count never decreases ([prev] is the
    count of the day before). *)
Fixpoint era_scan (n : nat) (doe prev : Z) : bool :=
  match n with
  | O => true
  | S n' =>
      let yoe := year_of_era doe in
      let mp := month_of_year (doe - (365 * yoe + yoe / 4 - yoe / 100)) in
      let cur := 12 * yoe + mp in
      (0 <=? mp) && (mp <=? 11) && (0 <=? yoe) && (yoe <=? 399) && (prev <=? cur)
      && era_scan n' (doe + 1) cur
  end.

(** ** Months of an era

    The days of an era taken month by month: where each month starts and
    ends, for the laws of the month-end offset and of the monthly buckets. *)

(** Days of the era before the year [yoe] of the era. *)
Definition days_before_year (yoe : Z) : Z := yoe * 365 + yoe / 4 - yoe / 100.

(** Day of the era on which month [M] of the era starts (March of the
    first year is month 0), and the day after its last day. *)
Definition month_start (M : Z) : Z :=
  days_before_year (M / 12) + (153 * (M mod 12) + 2) / 5.

Definition month_next (M : Z) : Z :=
  if M =? 4799 then 146097 else month_start (M + 1).

(** A scan of [n] consecutive months of an era from [M] on: each month
    starts and ends where [era_month] says, and is as long as
    [days_in_month] says. *)
Fixpoint month_scan (n : nat) (M : Z) : bool :=
  match n with
  | O => true
  | S n' =>
      let mp := M mod 12 in
      let m := if mp <? 10 then mp + 3 else mp - 9 in
      let y := if m <=? 2 then M / 12 + 1 else M / 12 in
      (0 <=? month_start M) && (month_next M <=? 146097)
      && (era_month (month_start M) =? M) && (era_month (month_next M - 1) =? M)
      && (month_next M - month_start M =? days_in_month y m)
      && month_scan n' (M + 1)
  end.

(** The month after month [m] of year [y]. *)
Definition next_month (y m : Z) : Z * Z := if m =? 12 then (y + 1, 1) else (y, m + 1).


(** ** Column names: [str.strip] and [str.lower] on ASCII text *)

Definition is_space (c : ascii) : bool :=
  let n := nat_of_ascii c in
  (Nat.leb 9 n && Nat.leb n 13) || (Nat.leb 28 n && Nat.leb n 32).

Definition lower_ascii (c : ascii) : ascii :=
  let n := nat_of_ascii c in
  if Nat.leb 65 n && Nat.leb n 90 then ascii_of_nat (n + 32) else c.

Fixpoint lower (s : string) : string :=
  match s with
  | EmptyString => EmptyString
  | String c s' => String (lower_ascii c) (lower s')
  end.

Fixpoint lstrip (s : string) : string :=
  match s with
  | EmptyString => EmptyString
  | String c s' => if is_space c then lstrip s' else s
  end.

Fixpoint rstrip (s : string) : string :=
  match s with
  | EmptyString => EmptyString
  | String c s' =>
      match rstrip s' with
      | EmptyString => if is_space c then EmptyString else String c EmptyString
      | r => String c r
      end
  end.

Definition strip (s : string) : string := rstrip (lstrip s).

Fixpoint join (sep : string) (l : list string) : string :=
  match l with
  | [] => EmptyString
  | [s] => s
  | s :: l' => s +:+ sep +:+ join sep l'
  end.

(** ** Errors

    Every failure of a loader is a [ValueError]; the raise sites are told
    apart here and [kind_of] groups them into the three kinds the
    specification names.  [SliceKeyError] is the [KeyError] pandas raises
    from label slicing on an index that is not monotonic. *)

Inductive error :=
| TooFewColumns (msg : string)
| MissingRequired (missing available : list string)
| MissingAttrColumns (file : string) (required : list string)
| ZoneNotFound (zone : string) (available : list string)
| StartAfterEnd
| NoData
| SliceKeyError.

Inductive error_kind := FormatError | RangeError | EmptyResultError | KeyError.

Definition kind_of (e : error) : error_kind :=
  match e with
  | TooFewColumns _ | MissingRequired _ _ | MissingAttrColumns _ _ | ZoneNotFound _ _ => FormatError
  | StartAfterEnd => RangeError
  | NoData => EmptyResultError
  | SliceKeyError => KeyError
  end.

(** How Python prints a list of plain strings: ['a', 'b']. *)
Definition py_list (l : list string) : string :=
  "[" +:+ join ", " ((λ x, "'" +:+ x +:+ "'") <$> l) +:+ "]".

(** The text of the exception.  The required columns of an attribute file
    are printed from a set, in an order Python does not fix. *)
Definition message (e : error) : string :=
  match e with
  | TooFewColumns msg => msg
  | MissingRequired missing available =>
      "Missing required columns: " +:+ py_list missing +:+ ". Available: "
        +:+ py_list available
  | MissingAttrColumns file required =>
      file +:+ " must contain columns: {" +:+ join ", " ((λ x, "'" +:+ x +:+ "'") <$> required)
        +:+ "}"
  | ZoneNotFound zone available =>
      "Zone '" +:+ zone +:+ "' not found in CSV columns. Available (sample): "
        +:+ join ", " available
  | StartAfterEnd => "`start` must be less than or equal to `end`."
  | NoData => "No data in the selected date range."
  | SliceKeyError => "KeyError"
  end.

Inductive result (A : Type) :=
| Ok (a : A)
| Err (e : error).
Arguments Ok {A} a.
Arguments Err {A} e.

#[global] Instance result_bind : MBind result := λ A B f r,
  match r with
  | Ok a => f a
  | Err e => Err e
  end.

(** ** Numbers and cells

    [to_numeric] is [pd.to_numeric(_, errors="coerce")] on one cell: the
    number a cell holds, or [None] (NaN) when it holds none. *)

Class Number (num : Type) := {
  nzero : num;
  nadd : num → num → num;
  nmul : num → num → num;
  ndiv : num → num → num;
  nof_nat : nat → num;
  to_numeric : string → option num
}.

(** ** Tables *)

(** A time-series file after [pd.read_csv(file_path, parse_dates=[0])]:
    the name of the first column, the names of the other columns, and the
    rows, each with its timestamp and the text of its other cells. *)
Record table := {
  date_col : string;
  columns : list string;
  rows : list (Timestamp * list string)
}.

(** A frame of numbers indexed by timestamps; [None] is NaN. *)
Record frame (num : Type) := {
  f_columns : list string;
  f_rows : list (Timestamp * list (option num))
}.
Arguments f_columns {num} _.
Arguments f_rows {num} _.

(** Position of the column called [name]. *)
Definition col_pos (name : string) (cols : list string) : nat :=
  match list_find (λ c, c = name) cols with
  | Some (j, _) => j
  | None => length cols
  end.

(** ** The index: minimum, maximum, order *)

Definition index_min (idx : list Timestamp) : option Timestamp :=
  match idx with
  | [] => None
  | t :: ts => Some (foldl Z.min t ts)
  end.

Definition index_max (idx : list Timestamp) : option Timestamp :=
  match idx with
  | [] => None
  | t :: ts => Some (foldl Z.max t ts)
  end.

Fixpoint is_monotonic_increasing (idx : list Timestamp) : bool :=
  match idx with
  | a :: (b :: _) as tl => bool_decide (a ≤ b) && is_monotonic_increasing tl
  | _ => true
  end.

Fixpoint is_monotonic_decreasing (idx : list Timestamp) : bool :=
  match idx with
  | a :: (b :: _) as tl => bool_decide (b ≤ a) && is_monotonic_decreasing tl
  | _ => true
  end.

(** [a > b] on timestamps: false as soon as one side is NaT. *)
Definition ts_gt (a b : option Timestamp) : bool :=
  match a, b with
  | Some x, Some y => bool_decide (y < x)
  | _, _ => false
  end.

(** ** Label slicing: [df.loc[start_ts:end_ts]]

    pandas turns each bound into a position ([Index.get_slice_bound]) and
    slices by position.  A bound that occurs in the index gives the position
    of its occurrences, which must be adjacent; a bound that does not occur
    is located by binary search, which needs a monotonic index. *)

Inductive side := Left | Right.

Fixpoint positions_from (i : nat) (x : Timestamp) (idx : list Timestamp) : list nat :=
  match idx with
  | [] => []
  | y :: ys =>
      if decide (y = x) then i :: positions_from (S i) x ys
      else positions_from (S i) x ys
  end.

Fixpoint contiguous (ps : list nat) : bool :=
  match ps with
  | p :: (q :: _) as tl => bool_decide (q = S p) && contiguous tl
  | _ => true
  end.

(** [numpy.searchsorted] on a sorted array: how many elements lie strictly
    below the value (left) or are at most the value (right). *)
Definition searchsorted (idx : list Timestamp) (x : Timestamp) (sd : side) : nat :=
  match sd with
  | Left => length (filter (λ y, y < x) idx)
  | Right => length (filter (λ y, y ≤ x) idx)
  end.

Definition get_slice_bound (idx : list Timestamp) (label : option Timestamp) (sd : side)
  : result nat :=
  match label with
  | None => Ok 0%nat (* NaT: the loaders only reach it on an empty index *)
  | Some x =>
      match positions_from 0 x idx with
      | [] =>
          if is_monotonic_increasing idx then Ok (searchsorted idx x sd)
          else if is_monotonic_decreasing idx then
            Ok (length idx - searchsorted (reverse idx) x
                               (match sd with Left => Right | Right => Left end))%nat
          else Err SliceKeyError
      | p :: ps =>
          if contiguous (p :: ps) then
            Ok (match sd with Left => p | Right => S (List.last ps p) end)
          else Err SliceKeyError
      end
  end.

Definition loc_slice {A} (start_ts end_ts : option Timestamp) (rs : list (Timestamp * A))
  : result (list (Timestamp * A)) :=
  lo ← get_slice_bound rs.*1 start_ts Left;
  hi ← get_slice_bound rs.*1 end_ts Right;
  Ok (drop lo (take hi rs)).

(** ** Resampling: [df.resample(rule)]

    The rules embedded are month end ([ME], the default ["ME"]), month
    start ([MS], ["MS"]), day ([Daily], ["D"]) and hour ([Hourly], ["h"]).
    Each timestamp belongs to one
    bucket, numbered by [bucket]; the bucket's timestamp in the result is
    [label] (the midnight of the last day of the month for ["ME"], the
    start of the period for the others).  The result has one row for every
    bucket from that of the earliest row to that of the latest row, also
    for the buckets no row falls in. *)

Inductive rule := ME | MS | Daily | Hourly.

Definition month_index (t : Timestamp) : Z :=
  let '(y, m, _) := ts_date t in y * 12 + (m - 1).

Definition bucket (r : rule) (t : Timestamp) : Z :=
  match r with
  | ME | MS => month_index t
  | Daily => t / NS_PER_DAY
  | Hourly => t / NS_PER_HOUR
  end.

Definition label (r : rule) (k : Z) : Timestamp :=
  match r with
  | ME => let y := k / 12 in let m := k mod 12 + 1 in
          days_from_civil y m (days_in_month y m) * NS_PER_DAY
  | MS => days_from_civil (k / 12) (k mod 12 + 1) 1 * NS_PER_DAY
  | Daily => k * NS_PER_DAY
  | Hourly => k * NS_PER_HOUR
  end.

(** The last bucket of the result.  For ["ME"] pandas drops the bin after
    the latest row only when that row lies strictly before the last
    nanosecond of its month ([_adjust_bin_edges]); a row on that very
    nanosecond leaves one more, empty, bucket. *)
Definition last_bucket (r : rule) (tmax : Timestamp) : Z :=
  match r with
  | ME => if bool_decide (tmax = label ME (bucket ME tmax) + NS_PER_DAY - 1)
          then bucket ME tmax + 1 else bucket ME tmax
  | _ => bucket r tmax
  end.

Definition bucket_range (r : rule) (idx : list Timestamp) : list Z :=
  match index_min idx, index_max idx with
  | Some lo, Some hi => seqZ (bucket r lo) (last_bucket r hi - bucket r lo + 1)
  | _, _ => []
  end.

(** The rows are grouped in time order; rows with equal timestamps keep
    their file order (a stable sort, the identity on a sorted file). *)
Fixpoint insert_row {A} (r : Timestamp * A) (l : list (Timestamp * A)) : list (Timestamp * A) :=
  match l with
  | [] => [r]
  | r' :: l' => if bool_decide (r.1 ≤ r'.1) then r :: l else r' :: insert_row r l'
  end.

Definition sort_index {A} (l : list (Timestamp * A)) : list (Timestamp * A) :=
  foldr insert_row [] l.

(** The first instant of bucket [k]: the bucket holds the timestamps from
    there to the first instant of the next bucket. *)
Definition period_start (r : rule) (k : Z) : Timestamp :=
  match r with
  | ME | MS => label MS k
  | Daily => label Daily k
  | Hourly => label Hourly k
  end.

Section Loaders.
Context {num : Type} `{Number num}.

Definition nsum (vs : list num) : num := foldl nadd nzero vs.

(** [.sum()] skips NaN and gives 0 for a bucket without numbers. *)
Definition sum_skipna (l : list (option num)) : option num :=
  Some (nsum (omap id l)).

(** Arithmetic mean; NaN when there is nothing to average. *)
Definition mean (vs : list num) : option num :=
  match vs with
  | [] => None
  | _ => Some (ndiv (nsum vs) (nof_nat (length vs)))
  end.

(** [.mean()] skips NaN and gives NaN for a bucket without numbers. *)
Definition mean_skipna (l : list (option num)) : option num :=
  mean (omap id l).

(** The cells of column [j] in the rows of bucket [k]. *)
Definition bucket_cells (r : rule) (k : Z) (j : nat)
    (rs : list (Timestamp * list (option num))) : list (option num) :=
  (λ row, mjoin (row.2 !! j)) <$> filter (λ row, bucket r row.1 = k) rs.

Definition resample (r : rule) (agg : list (option num) → option num) (ncols : nat)
    (rs : list (Timestamp * list (option num))) : list (Timestamp * list (option num)) :=
  let sorted := sort_index rs in
  (λ k, (label r k, (λ j, agg (bucket_cells r k j sorted)) <$> seq 0 ncols))
    <$> bucket_range r rs.*1.

(** ** The date window *)

Definition resolve_start (start : option Timestamp) (idx : list Timestamp) : option Timestamp :=
  match start with
  | Some s => Some s
  | None => index_min idx
  end.

Definition resolve_end (end_ : option Timestamp) (idx : list Timestamp) : option Timestamp :=
  match end_ with
  | Some e => Some (Hour 23 (MonthEnd 1 e))
  | None => index_max idx
  end.

(** ** [load_prices] *)

Definition required : list string := ["coal"; "gas"; "oil"].

Definition normalize_columns (cols : list string) : list string :=
  (λ c, lower (strip c)) <$> cols.

(** [df.apply(pd.to_numeric, errors="coerce")] *)
Definition coerce_all (ncols : nat) (rs : list (Timestamp * list string))
  : list (Timestamp * list (option num)) :=
  (λ r, (r.1, (λ j, (r.2 !! j) ≫= to_numeric) <$> seq 0 ncols)) <$> rs.

Definition load_prices (df : table) (start end_ : option Timestamp) (resample_method : rule)
  : result (frame num) :=
  if bool_decide (S (length (columns df)) < 2)%nat
  then Err (TooFewColumns "CSV must contain a date column plus at least the fuel columns.")
  else
  let cols := normalize_columns (columns df) in
  let missing := filter (λ c, c ∉ cols) required in
  if bool_decide (missing ≠ []) then Err (MissingRequired missing cols) else
  let df_num := coerce_all (length cols) (rows df) in
  let start_ts := resolve_start start (rows df).*1 in
  let end_ts := resolve_end end_ (rows df).*1 in
  if ts_gt start_ts end_ts then Err StartAfterEnd else
  sel ← loc_slice start_ts end_ts df_num;
  match sel with
  | [] => Err NoData
  | _ => Ok {| f_columns := cols;
               f_rows := resample resample_method mean_skipna (length cols) sel |}
  end.

(** ** [load_demand] *)

(** [{col.lower().strip(): col for col in df.columns}]: a later column
    replaces an earlier one with the same key. *)
Definition col_map (cols : list string) : gmap string string :=
  foldl (λ m col, <[strip (lower col) := col]> m) ∅ cols.

(** The column names shown when the zone is unknown. *)
Definition available (cols : list string) : list string :=
  take 20 cols ++ (if bool_decide (20 < length cols)%nat then ["..."] else []).

(** The selected column, coerced with [pd.to_numeric(_, errors="coerce")].
    Only this column is used after the slice, so the others are dropped
    here already. *)
Definition coerce_col (j : nat) (rs : list (Timestamp * list string))
  : list (Timestamp * list (option num)) :=
  (λ r, (r.1, [(r.2 !! j) ≫= to_numeric])) <$> rs.

(** [df * supply_factor] *)
Definition scale (supply_factor : num) (rs : list (Timestamp * list (option num)))
  : list (Timestamp * list (option num)) :=
  (λ r : Timestamp * list (option num),
     (r.1, (λ c : option num, (λ v, nmul v supply_factor) <$> c) <$> r.2)) <$> rs.

Definition load_demand (df : table) (start end_ : option Timestamp) (resample_method : rule)
    (zone : string) (supply_factor : num) : result (frame num) :=
  if bool_decide (S (length (columns df)) < 2)%nat
  then Err (TooFewColumns "CSV must contain a timestamp column plus at least one zone column.")
  else
  let zone_key := strip (lower zone) in
  match col_map (columns df) !! zone_key with
  | None => Err (ZoneNotFound zone (available (columns df)))
  | Some selected_col =>
      let df_num := coerce_col (col_pos selected_col (columns df)) (rows df) in
      let start_ts := resolve_start start (rows df).*1 in
      let end_ts := resolve_end end_ (rows df).*1 in
      if ts_gt start_ts end_ts then Err StartAfterEnd else
      sel ← loc_slice start_ts end_ts df_num;
      match sel with
      | [] => Err NoData
      | _ => Ok {| f_columns := [selected_col];
                   f_rows := scale supply_factor (resample resample_method sum_skipna 1 sel) |}
      end
  end.

End Loaders.

(** ** Attribute maps: [load_storage], [load_efficiency], [load_plant_capacity] *)

(** A file after [pd.read_csv(file_path)]: header and rows of cells. *)
Record attr_table := {
  a_columns : list string;
  a_rows : list (list string)
}.

(** The cell of a row in the column called [name]. *)
Definition attr_cell (name : string) (df : attr_table) (row : list string) : string :=
  default EmptyString (row !! col_pos name (a_columns df)).

(** [df[name]] *)
Definition column (name : string) (df : attr_table) : list string :=
  attr_cell name df <$> a_rows df.

(** [dict(pairs)]: a later pair replaces an earlier one with the same key. *)
Definition dict (pairs : list (string * string)) : gmap string string :=
  foldl (λ m p, <[p.1 := p.2]> m) ∅ pairs.

Definition load_attr (file key value : string) (df : attr_table)
  : result (gmap string string) :=
  if bool_decide ([key; value] ⊆ a_columns df)
  then Ok (dict (zip (column key df) (column value df)))
  else Err (MissingAttrColumns file [key; value]).

Definition load_storage : attr_table → result (gmap string string) :=
  load_attr "storage.csv" "fuel" "capacity".
Definition load_efficiency : attr_table → result (gmap string string) :=
  load_attr "efficiency.csv" "fuel" "efficiency".
Definition load_plant_capacity : attr_table → result (gmap string string) :=
  load_attr "plant_capacity.csv" "fuel" "capacity".

(** The three attribute loaders with their key and value columns. *)
Definition attr_loaders : list ((attr_table → result (gmap string string)) * string * string) :=
  [ (load_storage, "fuel", "capacity");
    (load_efficiency, "fuel", "efficiency");
    (load_plant_capacity, "fuel", "capacity") ].

(** ** A concrete number type and sample files

    Rationals, with unsigned decimal integers as the numerals a cell can
    hold; used to run the loaders on the files below. *)

Fixpoint parse_digits (s : string) (acc : Z) : option Z :=
  match s with
  | EmptyString => Some acc
  | String c s' =>
      let n := nat_of_ascii c in
      if Nat.leb 48 n && Nat.leb n 57
      then parse_digits s' (10 * acc + Z.of_nat (n - 48))
      else None
  end.

Definition parse_decimal (s : string) : option Q :=
  match s with
  | EmptyString => None
  | _ => (λ z, z # 1) <$> parse_digits s 0
  end.

#[global] Instance Q_number : Number Q := {|
  nzero := 0%Q;
  nadd := Qplus;
  nmul := Qmult;
  ndiv := Qdiv;
  nof_nat n := inject_Z (Z.of_nat n);
  to_numeric := parse_decimal
|}.

#[global] Instance Q_eq_dec : EqDecision Q.
Proof. solve_decision. Defined.

(** Monthly prices, one row on the first day of each month. *)
Definition prices_q1 : table := {|
  date_col := "month";
  columns := ["Coal"; " gas"; "oil"; "Lignite"];
  rows := [ (mk_ts 2024 1 1 0, ["10"; "30"; "50"; "7"]);
            (mk_ts 2024 2 1 0, ["12"; "n/a"; "52"; "8"]);
            (mk_ts 2024 3 1 0, ["14"; "34"; "54"; "9"]) ]
|}.

Definition prices_no_oil : table := {|
  date_col := "month";
  columns := ["coal"; "gas"];
  rows := [ (mk_ts 2024 1 1 0, ["10"; "30"]) ]
|}.

(** Hourly demand around the end of January 2024. *)
Definition demand_hourly : table := {|
  date_col := "utc_timestamp";
  columns := ["DK_1"; "DK_2"];
  rows := [ (mk_ts 2024 1 31 22, ["5"; "100"]);
            (mk_ts 2024 1 31 23, ["5"; "110"]);
            (mk_ts 2024 2 1 0, ["5"; "120"]);
            (mk_ts 2024 2 1 1, ["5"; "x"]);
            (mk_ts 2024 2 1 2, ["5"; "140"]) ]
|}.

Definition storage_csv : attr_table := {|
  a_columns := ["fuel"; "capacity"];
  a_rows := [ ["coal"; "10"]; ["gas"; "20"]; ["coal"; "15"] ]
|}.

(** Daily demand with a day without rows. *)
Definition demand_gap : table := {|
  date_col := "utc_timestamp";
  columns := ["DK_2"];
  rows := [ (mk_ts 2024 1 1 5, ["100"]); (mk_ts 2024 1 3 5, ["300"]) ]
|}.

Definition prices_gap : table := {|
  date_col := "month";
  columns := ["coal"; "gas"; "oil"];
  rows := [ (mk_ts 2024 1 1 0, ["10"; "30"; "50"]); (mk_ts 2024 3 1 0, ["14"; "34"; "54"]) ]
|}.

(** The price file listed newest first. *)
Definition prices_newest_first : table := {|
  date_col := "month";
  columns := ["Coal"; " gas"; "oil"; "Lignite"];
  rows := [ (mk_ts 2024 3 1 0, ["14"; "34"; "54"; "9"]);
            (mk_ts 2024 2 1 0, ["12"; "n/a"; "52"; "8"]);
            (mk_ts 2024 1 1 0, ["10"; "30"; "50"; "7"]) ]
|}.

(** The price file with its rows in no order of time. *)
Definition prices_shuffled : table := {|
  date_col := "month";
  columns := ["Coal"; " gas"; "oil"; "Lignite"];
  rows := [ (mk_ts 2024 2 1 0, ["12"; "n/a"; "52"; "8"]);
            (mk_ts 2024 1 1 0, ["10"; "30"; "50"; "7"]);
            (mk_ts 2024 3 1 0, ["14"; "34"; "54"; "9"]) ]
|}.

(** Daily demand whose rows are not in order of time. *)
Definition demand_unsorted : table := {|
  date_col := "utc_timestamp";
  columns := ["DK_2"];
  rows := [ (mk_ts 2024 1 1 0, ["1"]);
            (mk_ts 2024 1 3 0, ["3"]);
            (mk_ts 2024 1 2 0, ["7"]) ]
|}.

(** Prices with two rows in January and a lignite cell that holds no
    number. *)
Definition prices_daily : table := {|
  date_col := "date";
  columns := ["coal"; "gas"; "oil"; "Lignite"];
  rows := [ (mk_ts 2024 1 1 0, ["10"; "30"; "50"; "7"]);
            (mk_ts 2024 1 15 0, ["12"; "32"; "52"; "9"]);
            (mk_ts 2024 2 1 0, ["14"; "34"; "54"; "n/a"]) ]
|}.

(** ** Vocabulary of the statements *)

(** The rows whose timestamp lies in the inclusive window. *)
Definition window {A} (s e : Timestamp) (rs : list (Timestamp * A)) : list (Timestamp * A) :=
  filter (λ r, s ≤ r.1 ≤ e) rs.

(** The rows of one bucket. *)
Definition in_bucket {A} (r : rule) (k : Z) (rs : list (Timestamp * A)) : list (Timestamp * A) :=
  filter (λ row, bucket r row.1 = k) rs.

(** The rows whose timestamp lies in the period of bucket [k]. *)
Definition in_period {A} (r : rule) (k : Z) (rs : list (Timestamp * A)) : list (Timestamp * A) :=
  filter (λ row, period_start r k ≤ row.1 < period_start r (k + 1)) rs.

(** The numbers in column [j] of some rows of a file: the cells that
    [to_numeric] accepts, in row order. *)
Definition raw_values {num : Type} `{Number num} (j : nat) (rs : list (Timestamp * list string)) : list num :=
  omap (λ r, (r.2 !! j) ≫= to_numeric) rs.

(** The same file with other rows. *)
Definition with_rows (df : table) (rs : list (Timestamp * list string)) : table :=
  {| date_col := date_col df; columns := columns df; rows := rs |}.

(** Two lists of rows that agree on the timestamps and, cell by cell, on
    the number [to_numeric] reads (or on reading none). *)
Definition same_numbers {num : Type} `{Number num} (rs rs' : list (Timestamp * list string))
  : Prop :=
  Forall2 (λ r r', r.1 = r'.1 ∧
                   ∀ j, (r.2 !! j) ≫= to_numeric = (r'.2 !! j) ≫= to_numeric) rs rs'.

(** The frames the specification describes, written over the rows [W] of
    the file that lie in the window: one row per bucket, holding for
    demand the supply factor times the sum of the bucket's numbers, and for
    prices the mean of the bucket's numbers in every column. *)
Definition spec_demand_rows {num : Type} `{Number num} (r : rule) (j : nat) (supply_factor : num)
    (W : list (Timestamp * list string)) : list (Timestamp * list (option num)) :=
  (λ k, (label r k, [Some (nmul (nsum (raw_values j (in_bucket r k W))) supply_factor)]))
    <$> bucket_range r W.*1.

Definition spec_price_rows {num : Type} `{Number num} (r : rule) (ncols : nat)
    (W : list (Timestamp * list string)) : list (Timestamp * list (option num)) :=
  (λ k, (label r k, (λ j, mean (raw_values j (in_bucket r k W))) <$> seq 0 ncols))
    <$> bucket_range r W.*1.

(** * Properties *)

(** Closed decidable statements are settled by evaluation. *)
Ltac decide_by_computation :=
  lazymatch goal with
  | |- ?P => let d := constr:(_ : Decision P) in
             apply (@bool_decide_unpack P d); vm_compute; exact I
  end.

(** ** The calendar and the offsets on known dates *)

Example days_from_civil_2024 : days_from_civil 2024 1 1 = 19723.
Proof. reflexivity. Qed.

Example civil_from_days_leap_day : civil_from_days 19782 = (2024, 2, 29).
Proof. reflexivity. Qed.

Example civil_from_days_before_epoch : civil_from_days (-1) = (1969, 12, 31).
Proof. reflexivity. Qed.

(** The two cases of the pandas documentation of [MonthEnd]: a date inside
    a month moves to the end of that month, a date that is a month end
    moves to the end of the next month. *)
Example MonthEnd_inside_month : MonthEnd 1 (mk_ts 2022 1 30 0) = mk_ts 2022 1 31 0.
Proof. vm_compute. reflexivity. Qed.

Example MonthEnd_on_month_end : MonthEnd 1 (mk_ts 2022 1 31 0) = mk_ts 2022 2 28 0.
Proof. vm_compute. reflexivity. Qed.

Example MonthEnd_keeps_time : MonthEnd 1 (mk_ts 2024 12 1 5) = mk_ts 2024 12 31 5.
Proof. vm_compute. reflexivity. Qed.

Example strip_lower_example : strip (lower "  DK_2 ") = "dk_2".
Proof. reflexivity. Qed.

(** ** Label slicing on a sorted index *)

Lemma filter_none {A} (P : A → Prop) `{∀ x, Decision (P x)} (l : list A) :
  Forall (λ x, ¬ P x) l → filter P l = [].
Proof.
  induction 1 as [|x l Hx _ IH]; [reflexivity|].
  rewrite filter_cons_False by exact Hx. exact IH.
Qed.

Lemma monotonic_unfold a b l :
  is_monotonic_increasing (a :: b :: l)
  = bool_decide (a ≤ b) && is_monotonic_increasing (b :: l).
Proof. reflexivity. Qed.

Lemma monotonic_cons y ys :
  is_monotonic_increasing (y :: ys) = true →
  Forall (λ z, y ≤ z) ys ∧ is_monotonic_increasing ys = true.
Proof.
  revert y. induction ys as [|z zs IH]; intros y Hm.
  - split; [constructor | reflexivity].
  - rewrite monotonic_unfold in Hm.
    apply andb_true_iff in Hm as [Hle Hm]. apply bool_decide_eq_true in Hle.
    destruct (IH z Hm) as [Hall _]. split; [|exact Hm].
    constructor; [exact Hle|].
    eapply Forall_impl; [exact Hall|]. simpl. lia.
Qed.

Lemma positions_from_sorted i x idx :
  is_monotonic_increasing idx = true →
  positions_from i x idx
  = seq (i + length (filter (λ y, y < x) idx)) (length (filter (λ y, y = x) idx)).
Proof.
  revert i. induction idx as [|y ys IH]; intros i Hm; [reflexivity|].
  destruct (monotonic_cons _ _ Hm) as [Hall Hm'].
  cbn [positions_from]. destruct (decide (y = x)) as [->|Hne].
  - rewrite (filter_cons_False (λ y, y < x)) by (simpl; lia).
    rewrite (filter_cons_True (λ y, y = x)) by (simpl; reflexivity).
    rewrite (filter_none (λ y, y < x)); [|eapply Forall_impl; [exact Hall|]; simpl; lia].
    rewrite IH by exact Hm'.
    rewrite (filter_none (λ y, y < x)); [|eapply Forall_impl; [exact Hall|]; simpl; lia].
    cbn [length seq]. by rewrite !Nat.add_0_r.
  - rewrite (filter_cons_False (λ y, y = x)) by (simpl; exact Hne).
    rewrite IH by exact Hm'.
    destruct (decide (y < x)) as [Hlt|Hge].
    + rewrite (filter_cons_True (λ y, y < x)) by (simpl; exact Hlt).
      cbn [length]. f_equal. lia.
    + rewrite (filter_cons_False (λ y, y < x)) by (simpl; exact Hge).
      rewrite (filter_none (λ y, y = x)); [reflexivity|].
      eapply Forall_impl; [exact Hall|]. simpl. lia.
Qed.

Lemma contiguous_seq a n : contiguous (seq a n) = true.
Proof.
  revert a. induction n as [|n IH]; intros a; [reflexivity|].
  destruct n as [|n]; [reflexivity|].
  change (bool_decide (S a = S a) && contiguous (seq (S a) (S n)) = true).
  rewrite IH, bool_decide_eq_true_2; reflexivity.
Qed.

Lemma last_default_cons {A} (l : list A) x d : List.last (x :: l) d = List.last l x.
Proof.
  revert x d. induction l as [|y l IH]; intros x d; [reflexivity|].
  change (List.last (y :: l) d = List.last (y :: l) x). by rewrite !IH.
Qed.

Lemma last_seq a n : List.last (seq (S a) n) a = (a + n)%nat.
Proof.
  revert a. induction n as [|n IH]; intros a; [cbn; lia|].
  cbn [seq]. rewrite last_default_cons, IH. lia.
Qed.

Lemma count_le_split x (idx : list Timestamp) :
  length (filter (λ y, y ≤ x) idx)
  = Nat.add (length (filter (λ y, y < x) idx)) (length (filter (λ y, y = x) idx)).
Proof.
  induction idx as [|y ys IH]; [reflexivity|].
  rewrite !filter_cons. repeat case_decide; cbn [length]; lia.
Qed.

Lemma get_slice_bound_sorted idx x sd :
  is_monotonic_increasing idx = true →
  get_slice_bound idx (Some x) sd = Ok (searchsorted idx x sd).
Proof.
  intros Hm. unfold get_slice_bound.
  rewrite positions_from_sorted by exact Hm. cbn [Nat.add].
  destruct (length (filter (λ y, y = x) idx)) as [|n] eqn:Hn.
  - cbn [seq]. by rewrite Hm.
  - pose proof (contiguous_seq (length (filter (λ y, y < x) idx)) (S n)) as Hc.
    cbn [seq] in Hc |- *. rewrite Hc.
    destruct sd; cbn [searchsorted]; [reflexivity|].
    rewrite count_le_split, Hn. f_equal.
    rewrite last_seq. lia.
Qed.

Lemma slice_sorted {A} s e (rs : list (Timestamp * A)) :
  is_monotonic_increasing rs.*1 = true →
  drop (length (filter (λ y, y < s) rs.*1)) (take (length (filter (λ y, y ≤ e) rs.*1)) rs)
  = window s e rs.
Proof.
  unfold window. induction rs as [|[t a] rs IH]; intros Hm; [reflexivity|].
  rewrite fmap_cons in Hm |- *. cbn [fst] in Hm |- *.
  destruct (monotonic_cons _ _ Hm) as [Hall Hm']. specialize (IH Hm').
  revert Hall. rewrite Forall_fmap. intros Hall.
  destruct (decide (t ≤ e)) as [Hte|Hte].
  - rewrite (filter_cons_True (λ y, y ≤ e)) by (simpl; exact Hte).
    cbn [length take]. destruct (decide (t < s)) as [Hts|Hts].
    + rewrite (filter_cons_True (λ y, y < s)) by (simpl; exact Hts).
      cbn [length drop]. rewrite IH.
      rewrite filter_cons_False by (simpl; lia). reflexivity.
    + rewrite (filter_cons_False (λ y, y < s)) by (simpl; exact Hts).
      rewrite (filter_none (λ y, y < s)) in IH |- *;
        [| apply Forall_fmap; eapply Forall_impl; [exact Hall|]; simpl; lia ..].
      cbn [length] in IH |- *. rewrite !drop_0 in IH |- *. rewrite IH.
      rewrite filter_cons_True by (simpl; lia). reflexivity.
  - rewrite (filter_cons_False (λ y, y ≤ e)) by (simpl; exact Hte).
    rewrite (filter_none (λ y, y ≤ e));
      [| apply Forall_fmap; eapply Forall_impl; [exact Hall|]; simpl; lia].
    cbn [length take]. rewrite drop_nil. symmetry. apply filter_none.
    constructor; [simpl; lia|]. eapply Forall_impl; [exact Hall|]. simpl. lia.
Qed.

Lemma loc_slice_sorted {A} s e (rs : list (Timestamp * A)) :
  is_monotonic_increasing rs.*1 = true →
  loc_slice (Some s) (Some e) rs = Ok (window s e rs).
Proof.
  intros Hm. unfold loc_slice.
  rewrite !get_slice_bound_sorted by exact Hm. cbn.
  by rewrite slice_sorted.
Qed.

(** On a file that is not sorted the slice is by position: a row between
    the positions of the bounds is kept or dropped whatever its timestamp. *)
Example loc_slice_unsorted :
  loc_slice (Some 1) (Some 3) [(2, "b"); (1, "a"); (3, "c")] = Ok [(1, "a"); (3, "c")].
Proof. reflexivity. Qed.

(** Slicing an empty table gives no rows, whatever the bounds. *)
Lemma loc_slice_nil {A} s e : loc_slice s e (@nil (Timestamp * A)) = Ok [].
Proof. destruct s, e; reflexivity. Qed.

(** ** Sorting, minimum and maximum *)

Lemma sort_index_sorted {A} (rs : list (Timestamp * A)) :
  is_monotonic_increasing rs.*1 = true → sort_index rs = rs.
Proof.
  induction rs as [|r rs IH]; intros Hm; [reflexivity|].
  rewrite fmap_cons in Hm. destruct (monotonic_cons _ _ Hm) as [Hall Hm'].
  unfold sort_index in *. cbn [foldr]. rewrite IH by exact Hm'.
  destruct rs as [|r' rs]; [reflexivity|].
  rewrite fmap_cons in Hall. apply Forall_cons in Hall as [Hle _].
  cbn [insert_row]. by rewrite bool_decide_eq_true_2.
Qed.

Lemma foldl_min_elem a l : foldl Z.min a l ∈ a :: l.
Proof.
  revert a. induction l as [|b l IH]; intros a; [by left|].
  cbn [foldl]. specialize (IH (Z.min a b)).
  apply elem_of_cons in IH as [->|IH]; [|by do 2 right].
  destruct (Z.min_spec a b) as [[_ ->]|[_ ->]]; [left | right; left]; reflexivity.
Qed.

Lemma foldl_max_elem a l : foldl Z.max a l ∈ a :: l.
Proof.
  revert a. induction l as [|b l IH]; intros a; [by left|].
  cbn [foldl]. specialize (IH (Z.max a b)).
  apply elem_of_cons in IH as [->|IH]; [|by do 2 right].
  destruct (Z.max_spec a b) as [[_ ->]|[_ ->]]; [right; left | left]; reflexivity.
Qed.

Lemma index_min_elem idx m : index_min idx = Some m → m ∈ idx.
Proof. destruct idx; intros [= <-]. apply foldl_min_elem. Qed.

Lemma index_max_elem idx m : index_max idx = Some m → m ∈ idx.
Proof. destruct idx; intros [= <-]. apply foldl_max_elem. Qed.

Lemma monotonic_cons_intro y ys :
  Forall (λ z, y ≤ z) ys → is_monotonic_increasing ys = true →
  is_monotonic_increasing (y :: ys) = true.
Proof.
  intros Hall Hm. destruct ys as [|z zs]; [reflexivity|].
  rewrite monotonic_unfold, Hm. apply Forall_cons in Hall as [Hle _].
  by rewrite bool_decide_eq_true_2.
Qed.

Lemma monotonic_filter {A} (P : Timestamp * A → Prop) `{∀ x, Decision (P x)}
    (rs : list (Timestamp * A)) :
  is_monotonic_increasing rs.*1 = true →
  is_monotonic_increasing (filter P rs).*1 = true.
Proof.
  induction rs as [|r rs IH]; intros Hm; [reflexivity|].
  rewrite fmap_cons in Hm. destruct (monotonic_cons _ _ Hm) as [Hall Hm'].
  rewrite filter_cons. case_decide; [|by apply IH].
  rewrite fmap_cons. apply monotonic_cons_intro; [|by apply IH].
  apply Forall_fmap, Forall_forall. intros x Hx.
  apply list_elem_of_filter in Hx as [_ Hx].
  revert Hall. rewrite Forall_fmap, Forall_forall. intros Hall. by apply Hall.
Qed.

(** Sorting looks at the timestamps only. *)
Lemma insert_row_fmap {A B} (f : Timestamp * A → Timestamp * B) r (l : list (Timestamp * A)) :
  (∀ x, (f x).1 = x.1) → insert_row (f r) (f <$> l) = f <$> insert_row r l.
Proof.
  intros Hf. induction l as [|r' l IH]; [reflexivity|].
  rewrite fmap_cons. cbn [insert_row]. rewrite !Hf.
  case_bool_decide; [reflexivity|]. by rewrite fmap_cons, IH.
Qed.

Lemma sort_index_fmap {A B} (f : Timestamp * A → Timestamp * B) (l : list (Timestamp * A)) :
  (∀ x, (f x).1 = x.1) → sort_index (f <$> l) = f <$> sort_index l.
Proof.
  intros Hf. unfold sort_index. induction l as [|r l IH]; [reflexivity|].
  rewrite fmap_cons. cbn [foldr]. rewrite IH. by apply insert_row_fmap.
Qed.

(** ** Coercion works row by row and keeps the timestamps *)

Lemma filter_fmap_rows {A B} (P : B → Prop) (Q : A → Prop)
    `{∀ x, Decision (P x)} `{∀ x, Decision (Q x)} (f : A → B) (l : list A) :
  (∀ x, P (f x) ↔ Q x) → filter P (f <$> l) = f <$> filter Q l.
Proof.
  intros HPQ. induction l as [|x l IH]; [reflexivity|].
  rewrite fmap_cons, !filter_cons.
  destruct (decide (P (f x))) as [HP|HP], (decide (Q x)) as [HQ|HQ];
    rewrite ?fmap_cons, IH; try reflexivity; destruct (HPQ x); tauto.
Qed.

Lemma fmap_fst_keep {A B} (g : Timestamp * A → B) (rs : list (Timestamp * A)) :
  ((λ r, (r.1, g r)) <$> rs).*1 = rs.*1.
Proof. induction rs as [|r rs IH]; [reflexivity|]. rewrite !fmap_cons. by rewrite IH. Qed.

Lemma omap_id_fmap {A B} (f : A → option B) (l : list A) : omap id (f <$> l) = omap f l.
Proof.
  induction l as [|x l IH]; [reflexivity|].
  rewrite fmap_cons. cbn. destruct (f x); cbn; by rewrite <- IH.
Qed.

Section LoaderFacts.
Context {num : Type} `{Number num}.

Lemma coerce_col_window j s e (rs : list (Timestamp * list string)) :
  window s e (coerce_col j rs) = coerce_col j (window s e rs).
Proof. unfold window, coerce_col. by apply filter_fmap_rows. Qed.

Lemma coerce_all_window n s e (rs : list (Timestamp * list string)) :
  window s e (coerce_all n rs) = coerce_all n (window s e rs).
Proof. unfold window, coerce_all. by apply filter_fmap_rows. Qed.

Lemma bucket_cells_coerce_col r k j (rs : list (Timestamp * list string)) :
  omap id (bucket_cells r k 0 (coerce_col j rs)) = raw_values j (in_bucket r k rs).
Proof.
  unfold bucket_cells, coerce_col, raw_values, in_bucket.
  rewrite (filter_fmap_rows _ (λ row, bucket r row.1 = k)) by (intros row; reflexivity).
  rewrite <- list_fmap_compose, omap_id_fmap. reflexivity.
Qed.

Lemma bucket_cells_coerce_all r k n j (rs : list (Timestamp * list string)) :
  (j < n)%nat →
  omap id (bucket_cells r k j (coerce_all n rs)) = raw_values j (in_bucket r k rs).
Proof.
  intros Hj. unfold bucket_cells, coerce_all, raw_values, in_bucket.
  rewrite (filter_fmap_rows _ (λ row, bucket r row.1 = k)) by (intros row; reflexivity).
  rewrite <- list_fmap_compose, omap_id_fmap.
  apply list_omap_ext, Forall2_same_length_lookup_2; [reflexivity|].
  intros i row row' Hrow [= <-]%(eq_trans (eq_sym Hrow)). cbn.
  rewrite list_lookup_fmap, lookup_seq_lt by exact Hj. reflexivity.
Qed.

End LoaderFacts.

(** ** Dictionaries built by successive insertion: the last entry wins *)

Lemma foldl_insert_lookup {A} (kf vf : A → string) (l : list A) (m : gmap string string) k :
  foldl (λ m x, <[kf x := vf x]> m) m l !! k
  = match last (filter (λ x, kf x = k) l) with
    | Some x => Some (vf x)
    | None => m !! k
    end.
Proof.
  revert m. induction l as [|x l IH]; intros m; [reflexivity|].
  cbn [foldl]. rewrite IH, filter_cons.
  destruct (decide (kf x = k)) as [Hk|Hk].
  - rewrite last_cons. destruct (last (filter _ l)); [reflexivity|].
    by rewrite Hk, lookup_insert_eq.
  - destruct (last (filter _ l)); [reflexivity|].
    by rewrite lookup_insert_ne.
Qed.

Lemma col_map_lookup cols key :
  col_map cols !! key = last (filter (λ c, strip (lower c) = key) cols).
Proof.
  unfold col_map. rewrite (foldl_insert_lookup (λ c, strip (lower c)) id).
  rewrite lookup_empty. by destruct (last _).
Qed.

Lemma last_elem_of {A} (l : list A) x : last l = Some x → x ∈ l.
Proof.
  rewrite last_lookup. intros Hl. by eapply list_elem_of_lookup_2.
Qed.

Lemma col_map_Some cols key c :
  col_map cols !! key = Some c → c ∈ cols ∧ strip (lower c) = key.
Proof.
  rewrite col_map_lookup. intros Hl%last_elem_of.
  apply list_elem_of_filter in Hl. tauto.
Qed.

Lemma col_map_None cols key :
  col_map cols !! key = None ↔ ∀ c, c ∈ cols → strip (lower c) ≠ key.
Proof.
  rewrite col_map_lookup, last_None. split.
  - intros Hnil c Hc Hk. eapply filter_nil_not_elem_of; [exact Hnil| |exact Hc]. exact Hk.
  - intros Hall. apply filter_none, Forall_forall. intros c Hc. by apply Hall.
Qed.

(** ** The loaders on a file sorted by time *)

Section LoaderSorted.
Context {num : Type} `{Number num}.

Lemma resample_sum_sorted r j sf (W : list (Timestamp * list string)) :
  is_monotonic_increasing W.*1 = true →
  scale sf (resample r sum_skipna 1 (coerce_col j W)) = spec_demand_rows r j sf W.
Proof.
  intros Hm. unfold scale, resample, spec_demand_rows.
  assert (Hfst : (coerce_col j W).*1 = W.*1) by apply fmap_fst_keep.
  rewrite sort_index_sorted by (by rewrite Hfst).
  rewrite Hfst, <- list_fmap_compose. apply list_fmap_ext. intros _ k _.
  cbn. unfold sum_skipna. by rewrite bucket_cells_coerce_col.
Qed.

Lemma resample_mean_sorted r n (W : list (Timestamp * list string)) :
  is_monotonic_increasing W.*1 = true →
  resample r mean_skipna n (coerce_all n W) = spec_price_rows r n W.
Proof.
  intros Hm. unfold resample, spec_price_rows.
  assert (Hfst : (coerce_all n W).*1 = W.*1) by apply fmap_fst_keep.
  rewrite sort_index_sorted by (by rewrite Hfst).
  rewrite Hfst. apply list_fmap_ext. intros _ k _. f_equal.
  apply list_fmap_ext. intros i j Hj%lookup_seq. unfold mean_skipna.
  rewrite bucket_cells_coerce_all; [reflexivity|]. lia.
Qed.

Lemma load_demand_sorted df start end_ r zone sf sel s e :
  is_monotonic_increasing (rows df).*1 = true →
  col_map (columns df) !! strip (lower zone) = Some sel →
  resolve_start start (rows df).*1 = Some s →
  resolve_end end_ (rows df).*1 = Some e →
  load_demand df start end_ r zone sf
  = if bool_decide (e < s) then Err StartAfterEnd
    else let W := window s e (rows df) in
         match W with
         | [] => Err NoData
         | _ => Ok {| f_columns := [sel];
                      f_rows := spec_demand_rows r (col_pos sel (columns df)) sf W |}
         end.
Proof.
  intros Hm Hsel Hs He. unfold load_demand.
  destruct (col_map_Some _ _ _ Hsel) as [Hin _].
  rewrite bool_decide_eq_false_2
    by (destruct (columns df); [by apply elem_of_nil in Hin | cbn; lia]).
  rewrite Hsel, Hs, He. cbn [ts_gt]. case_bool_decide; [reflexivity|].
  rewrite loc_slice_sorted by (unfold coerce_col; by rewrite fmap_fst_keep).
  cbn. rewrite coerce_col_window.
  pose proof (monotonic_filter (λ r, s ≤ r.1 ≤ e) _ Hm) as HmW.
  fold (window s e (rows df)) in HmW.
  destruct (window s e (rows df)) as [|row W] eqn:HW; [reflexivity|].
  cbn [coerce_col fmap list_fmap]. do 2 f_equal.
  apply (resample_sum_sorted r _ sf (row :: W) HmW).
Qed.

Lemma load_prices_sorted df start end_ r s e :
  is_monotonic_increasing (rows df).*1 = true →
  required ⊆ normalize_columns (columns df) →
  resolve_start start (rows df).*1 = Some s →
  resolve_end end_ (rows df).*1 = Some e →
  load_prices df start end_ r
  = if bool_decide (e < s) then Err StartAfterEnd
    else let W := window s e (rows df) in
         match W with
         | [] => Err NoData
         | _ => Ok {| f_columns := normalize_columns (columns df);
                      f_rows := spec_price_rows r (length (columns df)) W |}
         end.
Proof.
  intros Hm Hreq Hs He. unfold load_prices.
  rewrite bool_decide_eq_false_2.
  2:{ assert (Hc : "coal" ∈ normalize_columns (columns df))
        by (apply Hreq; unfold required; set_solver).
      unfold normalize_columns in Hc.
      destruct (columns df); [by apply elem_of_nil in Hc | cbn; lia]. }
  rewrite (filter_none (λ c, c ∉ normalize_columns (columns df)))
    by (apply Forall_forall; intros c Hc Hn; apply Hn, Hreq, Hc).
  rewrite bool_decide_eq_false_2 by (by intros []).
  rewrite Hs, He. cbn [ts_gt]. case_bool_decide; [reflexivity|].
  rewrite loc_slice_sorted by (unfold coerce_all; by rewrite fmap_fst_keep).
  cbn. rewrite coerce_all_window.
  pose proof (monotonic_filter (λ r, s ≤ r.1 ≤ e) _ Hm) as HmW.
  fold (window s e (rows df)) in HmW.
  assert (Hlen : length (normalize_columns (columns df)) = length (columns df))
    by apply length_fmap.
  destruct (window s e (rows df)) as [|row W] eqn:HW; [reflexivity|].
  cbn [coerce_all fmap list_fmap]. do 2 f_equal. rewrite Hlen.
  apply (resample_mean_sorted r _ (row :: W) HmW).
Qed.

End LoaderSorted.

(** ** The loaders on any file *)

Lemma loc_slice_fmap {A B} (f : Timestamp * A → Timestamp * B) s e (rs : list (Timestamp * A)) :
  (∀ r, (f r).1 = r.1) →
  loc_slice s e (f <$> rs)
  = match loc_slice s e rs with
    | Ok l => Ok (f <$> l)
    | Err x => Err x
    end.
Proof.
  intros Hf. unfold loc_slice.
  assert (Hfst : (f <$> rs).*1 = rs.*1).
  { rewrite <- list_fmap_compose. apply list_fmap_ext. intros _ r _. apply Hf. }
  rewrite Hfst.
  destruct (get_slice_bound rs.*1 s Left) as [lo|x]; [|reflexivity].
  destruct (get_slice_bound rs.*1 e Right) as [hi|x]; [|reflexivity].
  cbn. by rewrite fmap_drop, fmap_take.
Qed.

Section LoaderAny.
Context {num : Type} `{Number num}.

Lemma required_present (cols : list string) :
  required ⊆ cols → filter (λ c, c ∉ cols) required = [] ∧ (1 ≤ length cols)%nat.
Proof.
  intros Hreq. split.
  - apply filter_none, Forall_forall. intros c Hc Hn. apply Hn, Hreq, Hc.
  - assert (Hc : "coal" ∈ cols) by (apply Hreq; unfold required; set_solver).
    destruct cols; [by apply elem_of_nil in Hc | cbn; lia].
Qed.

Lemma load_prices_valid df start end_ r :
  required ⊆ normalize_columns (columns df) →
  load_prices df start end_ r
  = let start_ts := resolve_start start (rows df).*1 in
    let end_ts := resolve_end end_ (rows df).*1 in
    if ts_gt start_ts end_ts then Err StartAfterEnd
    else match loc_slice start_ts end_ts (rows df) with
         | Err x => Err x
         | Ok [] => Err NoData
         | Ok W =>
             Ok {| f_columns := normalize_columns (columns df);
                   f_rows := resample r mean_skipna (length (columns df))
                               (coerce_all (length (columns df)) W) |}
         end.
Proof.
  intros Hreq. destruct (required_present _ Hreq) as [Hnone Hlen].
  assert (Hl : length (normalize_columns (columns df)) = length (columns df))
    by apply length_fmap.
  unfold load_prices. rewrite Hnone, Hl.
  rewrite bool_decide_eq_false_2 by lia.
  rewrite bool_decide_eq_false_2 by (by intros []).
  cbn zeta. destruct (ts_gt _ _); [reflexivity|].
  unfold coerce_all at 1. rewrite loc_slice_fmap by reflexivity.
  destruct (loc_slice _ _ (rows df)) as [[|row W]|x]; reflexivity.
Qed.

Lemma load_demand_valid df start end_ r zone sf sel :
  col_map (columns df) !! strip (lower zone) = Some sel →
  load_demand df start end_ r zone sf
  = let start_ts := resolve_start start (rows df).*1 in
    let end_ts := resolve_end end_ (rows df).*1 in
    if ts_gt start_ts end_ts then Err StartAfterEnd
    else match loc_slice start_ts end_ts (rows df) with
         | Err x => Err x
         | Ok [] => Err NoData
         | Ok W =>
             Ok {| f_columns := [sel];
                   f_rows := scale sf (resample r sum_skipna 1
                               (coerce_col (col_pos sel (columns df)) W)) |}
         end.
Proof.
  intros Hsel. destruct (col_map_Some _ _ _ Hsel) as [Hin _].
  unfold load_demand.
  rewrite bool_decide_eq_false_2
    by (destruct (columns df); [by apply elem_of_nil in Hin | cbn; lia]).
  rewrite Hsel. cbn zeta. destruct (ts_gt _ _); [reflexivity|].
  unfold coerce_col at 1. rewrite loc_slice_fmap by reflexivity.
  destruct (loc_slice _ _ (rows df)) as [[|row W]|x]; reflexivity.
Qed.

End LoaderAny.

(** ** Buckets follow the order of time *)

Lemma era_scan_ok : era_scan (Z.to_nat 146097) 0 0 = true.
Proof. vm_compute. reflexivity. Qed.

Lemma era_scan_unfold n d prev :
  era_scan (S n) d prev
  = (0 <=? month_of_year (day_of_year d)) && (month_of_year (day_of_year d) <=? 11)
    && (0 <=? year_of_era d) && (year_of_era d <=? 399) && (prev <=? era_month d)
    && era_scan n (d + 1) (era_month d).
Proof. reflexivity. Qed.

Lemma era_scan_spec n d prev :
  era_scan n d prev = true →
  ((0 < n)%nat → prev ≤ era_month d) ∧
  ∀ x, d ≤ x < d + Z.of_nat n →
       0 ≤ month_of_year (day_of_year x) ≤ 11 ∧ 0 ≤ year_of_era x ≤ 399 ∧
       (x + 1 < d + Z.of_nat n → era_month x ≤ era_month (x + 1)).
Proof.
  revert d prev. induction n as [|n IH]; intros d prev Hall; [split; intros; lia|].
  rewrite era_scan_unfold in Hall.
  repeat (apply andb_true_iff in Hall as [Hall ?]).
  destruct (IH (d + 1) (era_month d)) as [Hnext Hrest]; [assumption|].
  split; [intros _; lia|]. intros x Hx.
  destruct (decide (x = d)) as [->|Hne].
  - split_and!; [lia..|]. intros Hlt. apply Hnext. lia.
  - destruct (Hrest x) as (Hmp & Hyoe & Hstep); [lia|].
    split_and!; [lia..|]. intros Hlt. apply Hstep. lia.
Qed.

Lemma era_day_facts doe :
  0 ≤ doe < 146097 →
  0 ≤ month_of_year (day_of_year doe) ≤ 11 ∧ 0 ≤ year_of_era doe ≤ 399 ∧
  (doe < 146096 → era_month doe ≤ era_month (doe + 1)).
Proof.
  intros Hdoe.
  assert (Hn : Z.of_nat (Z.to_nat 146097) = 146097) by (by rewrite Z2Nat.id).
  destruct (era_scan_spec _ _ _ era_scan_ok) as [_ Hall].
  destruct (Hall doe) as (Hmp & Hyoe & Hstep); [rewrite Hn; lia|].
  split_and!; [lia..|]. intros Hlt. apply Hstep. rewrite Hn. lia.
Qed.

Lemma era_month_mono a b : 0 ≤ a → a ≤ b → b < 146097 → era_month a ≤ era_month b.
Proof.
  intros Ha Hab Hb.
  assert (Hn : ∀ n : nat, a + Z.of_nat n < 146097 → era_month a ≤ era_month (a + Z.of_nat n)).
  { induction n as [|n IH]; intros Hlt; [by rewrite Z.add_0_r|].
    etrans; [apply IH; lia|].
    destruct (era_day_facts (a + Z.of_nat n)) as (_ & _ & Hstep); [lia|].
    replace (a + Z.of_nat (S n)) with (a + Z.of_nat n + 1) by lia. apply Hstep. lia. }
  replace b with (a + Z.of_nat (Z.to_nat (b - a))) by lia. apply Hn. lia.
Qed.

Lemma month_index_era t :
  let z' := t / NS_PER_DAY + 719468 in
  month_index t = 4800 * (z' / 146097) + era_month (z' mod 146097) + 2.
Proof.
  intros z'. unfold month_index, ts_date, civil_from_days. fold z'.
  replace (z' - z' / 146097 * 146097) with (z' mod 146097)
    by (rewrite Z.mod_eq by lia; lia).
  destruct (era_day_facts (z' mod 146097)) as (Hmp & _ & _);
    [apply Z.mod_pos_bound; lia|].
  unfold era_month. set (mp := month_of_year _) in *. set (yoe := year_of_era _).
  destruct (mp <? 10) eqn:Hlt.
  - destruct (mp + 3 <=? 2) eqn:Hle; lia.
  - destruct (mp - 9 <=? 2) eqn:Hle; lia.
Qed.

Lemma month_index_mono t1 t2 : t1 ≤ t2 → month_index t1 ≤ month_index t2.
Proof.
  intros Hle. rewrite !month_index_era. cbn zeta.
  assert (Hday : t1 / NS_PER_DAY + 719468 ≤ t2 / NS_PER_DAY + 719468).
  { apply Z.add_le_mono_r, Z.div_le_mono; [reflexivity | exact Hle]. }
  set (z1 := t1 / NS_PER_DAY + 719468) in *. set (z2 := t2 / NS_PER_DAY + 719468) in *.
  pose proof (Z.mod_pos_bound z1 146097 eq_refl) as Hd1.
  pose proof (Z.mod_pos_bound z2 146097 eq_refl) as Hd2.
  pose proof (Z.div_le_mono z1 z2 146097 eq_refl Hday) as Hera.
  destruct (decide (z1 / 146097 = z2 / 146097)) as [Heq|Hne].
  - rewrite Heq. apply Z.add_le_mono_r, Z.add_le_mono_l, era_month_mono; try lia.
    rewrite !Z.mod_eq by lia. lia.
  - destruct (era_day_facts (z1 mod 146097) Hd1) as (? & ? & _).
    destruct (era_day_facts (z2 mod 146097) Hd2) as (? & ? & _).
    unfold era_month. lia.
Qed.

Lemma bucket_mono r t1 t2 : t1 ≤ t2 → bucket r t1 ≤ bucket r t2.
Proof.
  intros Hle. destruct r; cbn [bucket]; try by apply month_index_mono.
  - apply Z.div_le_mono; [reflexivity | exact Hle].
  - apply Z.div_le_mono; [reflexivity | exact Hle].
Qed.

Lemma bucket_le_last_bucket r t : bucket r t ≤ last_bucket r t.
Proof. destruct r; cbn [last_bucket]; try reflexivity. case_bool_decide; lia. Qed.

Lemma foldl_min_le a l : foldl Z.min a l ≤ a ∧ Forall (λ x, foldl Z.min a l ≤ x) l.
Proof.
  revert a. induction l as [|b l IH]; intros a; [split; [reflexivity|constructor]|].
  cbn [foldl]. destruct (IH (Z.min a b)) as [Hle Hall]. split; [lia|].
  constructor; [lia | exact Hall].
Qed.

Lemma foldl_max_ge a l : a ≤ foldl Z.max a l ∧ Forall (λ x, x ≤ foldl Z.max a l) l.
Proof.
  revert a. induction l as [|b l IH]; intros a; [split; [reflexivity|constructor]|].
  cbn [foldl]. destruct (IH (Z.max a b)) as [Hle Hall]. split; [lia|].
  constructor; [lia | exact Hall].
Qed.

Lemma index_min_le idx m t : index_min idx = Some m → t ∈ idx → m ≤ t.
Proof.
  destruct idx as [|a l]; intros [= <-] Ht.
  destruct (foldl_min_le a l) as [Ha Hall].
  apply elem_of_cons in Ht as [->|Ht]; [exact Ha|].
  rewrite Forall_forall in Hall. by apply Hall.
Qed.

Lemma index_max_ge idx m t : index_max idx = Some m → t ∈ idx → t ≤ m.
Proof.
  destruct idx as [|a l]; intros [= <-] Ht.
  destruct (foldl_max_ge a l) as [Ha Hall].
  apply elem_of_cons in Ht as [->|Ht]; [exact Ha|].
  rewrite Forall_forall in Hall. by apply Hall.
Qed.

(** Every row falls into one of the buckets of the result. *)
Lemma bucket_in_range r idx t : t ∈ idx → bucket r t ∈ bucket_range r idx.
Proof.
  intros Ht. unfold bucket_range.
  destruct idx as [|a l]; [by apply elem_of_nil in Ht|].
  destruct (index_min (a :: l)) as [lo|] eqn:Hlo; [|discriminate].
  destruct (index_max (a :: l)) as [hi|] eqn:Hhi; [|discriminate].
  pose proof (index_min_le _ _ _ Hlo Ht). pose proof (index_max_ge _ _ _ Hhi Ht).
  pose proof (bucket_mono r lo t). pose proof (bucket_mono r t hi).
  pose proof (bucket_le_last_bucket r hi).
  apply elem_of_seqZ. lia.
Qed.

(** The buckets of the result lie between those of two rows. *)
Lemma bucket_range_bounds r idx k :
  k ∈ bucket_range r idx →
  ∃ t1 t2, t1 ∈ idx ∧ t2 ∈ idx ∧ bucket r t1 ≤ k ≤ last_bucket r t2.
Proof.
  unfold bucket_range. intros Hk.
  destruct (index_min idx) as [lo|] eqn:Hlo; [|by apply elem_of_nil in Hk].
  destruct (index_max idx) as [hi|] eqn:Hhi; [|by apply elem_of_nil in Hk].
  apply elem_of_seqZ in Hk. exists lo, hi.
  split_and!; [by apply index_min_elem | by apply index_max_elem | lia | lia].
Qed.

(** ** What a successful call implies *)

Section LoaderInversion.
Context {num : Type} `{Number num}.

Lemma resolve_some start end_ (idx : list Timestamp) :
  idx ≠ [] →
  ∃ s e, resolve_start start idx = Some s ∧ resolve_end end_ idx = Some e.
Proof. destruct idx; [done|]. intros _. destruct start, end_; cbn; eauto. Qed.

Lemma load_demand_ok_inv df start end_ r zone sf res :
  load_demand df start end_ r zone sf = Ok res →
  ∃ sel s e, col_map (columns df) !! strip (lower zone) = Some sel ∧
             resolve_start start (rows df).*1 = Some s ∧
             resolve_end end_ (rows df).*1 = Some e.
Proof.
  intros Hok. destruct (col_map (columns df) !! strip (lower zone)) as [sel|] eqn:Hsel.
  2:{ unfold load_demand in Hok. rewrite Hsel in Hok. case_bool_decide; discriminate. }
  exists sel. rewrite (load_demand_valid _ _ _ _ _ _ _ Hsel) in Hok. cbn zeta in Hok.
  destruct (rows df) as [|row rs] eqn:Hrows.
  - rewrite loc_slice_nil in Hok. destruct (ts_gt _ _); discriminate.
  - destruct (resolve_some start end_ (row :: rs).*1) as (s & e & Hs & He); [done|].
    exists s, e. by rewrite Hs, He.
Qed.

Lemma load_prices_ok_inv df start end_ r res :
  load_prices df start end_ r = Ok res →
  required ⊆ normalize_columns (columns df) ∧
  ∃ s e, resolve_start start (rows df).*1 = Some s ∧
         resolve_end end_ (rows df).*1 = Some e.
Proof.
  intros Hok.
  assert (Hreq : required ⊆ normalize_columns (columns df)).
  { unfold load_prices in Hok. case_bool_decide; [discriminate|].
    case_bool_decide as Hmiss; [discriminate|].
    intros c Hc.
    destruct (decide (c ∈ normalize_columns (columns df))) as [|Hn]; [done|].
    exfalso. exact (filter_nil_not_elem_of _ _ c Hmiss Hn Hc). }
  split; [exact Hreq|].
  rewrite (load_prices_valid _ _ _ _ Hreq) in Hok. cbn zeta in Hok.
  destruct (rows df) as [|row rs] eqn:Hrows.
  - rewrite loc_slice_nil in Hok. destruct (ts_gt _ _); discriminate.
  - apply (resolve_some start end_ (row :: rs).*1). done.
Qed.


End LoaderInversion.

(** ** Errors of the slice *)

Lemma get_slice_bound_err idx label sd x :
  get_slice_bound idx label sd = Err x → x = SliceKeyError.
Proof.
  unfold get_slice_bound. destruct label as [t|]; [|discriminate].
  destruct (positions_from 0 t idx).
  - destruct (is_monotonic_increasing idx); [discriminate|].
    destruct (is_monotonic_decreasing idx); [discriminate|]. by intros [= <-].
  - destruct (contiguous _); [discriminate|]. by intros [= <-].
Qed.

Lemma loc_slice_err {A} s e (rs : list (Timestamp * A)) x :
  loc_slice s e rs = Err x → x = SliceKeyError.
Proof.
  unfold loc_slice.
  destruct (get_slice_bound rs.*1 s Left) as [lo|y] eqn:Hlo;
    [|intros [= <-]; by eapply get_slice_bound_err].
  destruct (get_slice_bound rs.*1 e Right) as [hi|y] eqn:Hhi;
    [discriminate | intros [= <-]; by eapply get_slice_bound_err].
Qed.

Lemma loc_slice_same_index {A B} s e (rs : list (Timestamp * A)) (rs' : list (Timestamp * B)) :
  rs.*1 = rs'.*1 →
  match loc_slice s e rs, loc_slice s e rs' with
  | Ok l, Ok l' => l.*1 = l'.*1
  | Err x, Err y => x = y
  | _, _ => False
  end.
Proof.
  intros Hidx. unfold loc_slice. rewrite Hidx.
  destruct (get_slice_bound rs'.*1 s Left) as [lo|x]; [|reflexivity].
  destruct (get_slice_bound rs'.*1 e Right) as [hi|x]; [|reflexivity].
  cbn. by rewrite !fmap_drop, !fmap_take, Hidx.
Qed.

(** ** Columns and cells of the price frame *)

Section PriceFrame.
Context {num : Type} `{Number num}.

Lemma resample_row_length r agg n (rs : list (Timestamp * list (option num))) :
  Forall (λ row, length row.2 = n) (resample r agg n rs).
Proof.
  unfold resample. apply Forall_fmap, Forall_forall. intros k _. cbn.
  by rewrite length_fmap, length_seq.
Qed.

(** The mean per bucket and column, on rows in any order: the rows of a
    bucket are taken in order of time. *)
Lemma resample_mean_any r n (W : list (Timestamp * list string)) :
  resample r mean_skipna n (coerce_all n W)
  = (λ k, (label r k, (λ j, mean (raw_values j (in_bucket r k (sort_index W)))) <$> seq 0 n))
      <$> bucket_range r W.*1.
Proof.
  unfold resample.
  assert (Hfst : (coerce_all n W).*1 = W.*1) by apply fmap_fst_keep.
  assert (Hsort : sort_index (coerce_all n W) = coerce_all n (sort_index W))
    by (unfold coerce_all; by apply sort_index_fmap).
  rewrite Hfst, Hsort. apply list_fmap_ext. intros _ k _. f_equal.
  apply list_fmap_ext. intros i j Hj%lookup_seq. unfold mean_skipna.
  rewrite bucket_cells_coerce_all; [reflexivity|]. lia.
Qed.

Lemma coerce_all_same n (rs rs' : list (Timestamp * list string)) :
  same_numbers rs rs' → coerce_all n rs = coerce_all n rs'.
Proof.
  unfold coerce_all. induction 1 as [|r r' rs rs' [Ht Hcells] _ IH]; [reflexivity|].
  rewrite !fmap_cons, IH, Ht. do 2 f_equal.
  apply list_fmap_ext. intros _ j _. apply Hcells.
Qed.

Lemma same_numbers_index (rs rs' : list (Timestamp * list string)) :
  same_numbers rs rs' → rs.*1 = rs'.*1.
Proof.
  induction 1 as [|r r' rs rs' [Ht _] _ IH]; [reflexivity|].
  by rewrite !fmap_cons, IH, Ht.
Qed.

End PriceFrame.

(** ** Attribute maps *)

Lemma zip_columns (key value : string) (df : attr_table) :
  zip (column key df) (column value df)
  = (λ row, (attr_cell key df row, attr_cell value df row)) <$> a_rows df.
Proof.
  unfold column. induction (a_rows df) as [|row l IH]; [reflexivity|].
  rewrite !fmap_cons. cbn [zip zip_with]. by rewrite <- IH.
Qed.

Lemma last_filter_fmap {A B} (P : B → Prop) `{∀ y, Decision (P y)} (f : A → B) (l : list A) :
  last (filter P (f <$> l)) = f <$> last (filter (λ x, P (f x)) l).
Proof.
  rewrite (filter_fmap_rows P (λ x, P (f x))) by done.
  by rewrite fmap_last.
Qed.

Lemma load_attr_lookup file key value df :
  [key; value] ⊆ a_columns df →
  ∃ m, load_attr file key value df = Ok m ∧
       ∀ k, m !! k
            = attr_cell value df
                <$> last (filter (λ row, attr_cell key df row = k) (a_rows df)).
Proof.
  intros Hcols. unfold load_attr. rewrite bool_decide_eq_true_2 by exact Hcols.
  eexists. split; [reflexivity|]. intros k.
  unfold dict. rewrite (foldl_insert_lookup fst snd), lookup_empty.
  rewrite zip_columns.
  rewrite (last_filter_fmap (λ p : string * string, p.1 = k)). cbn [fst].
  by destruct (last _).
Qed.

(** * The claims *)

(** ** The date window *)

(** An end in the middle of a month is moved to the last day of that
    month, 23:00. *)
Example resolve_end_mid_month :
  resolve_end (Some (mk_ts 2024 1 15 0)) [] = Some (mk_ts 2024 1 31 23).
Proof. vm_compute. reflexivity. Qed.

(** C1, on the code.  An end that already is the last day of its month is
    moved to the last day of the next month: with [end="2024-01-31"] the
    upper bound is 2024-02-29T23:00, and hourly rows of February are part
    of the result. *)
Theorem resolve_end_on_month_end :
  resolve_end (Some (mk_ts 2024 1 31 0)) [] = Some (mk_ts 2024 2 29 23) ∧
  ∃ res, load_demand (num := Q) demand_hourly None (Some (mk_ts 2024 1 31 0)) Hourly "DK_2"
           (1 # 2)%Q = Ok res ∧
         (mk_ts 2024 2 1 2, [Some (140 # 2)%Q]) ∈ f_rows res.
Proof.
  split; [vm_compute; reflexivity|].
  eexists. split; [vm_compute; reflexivity|]. decide_by_computation.
Qed.

(** ** Aggregation *)

(** C2, as the code has it.  On a demand file sorted by time, every row of
    the returned frame is one aggregation bucket of the window, and its
    single value is the sum of the numbers that the selected zone column
    holds in the rows of that bucket, multiplied by [supply_factor] (the
    code computes [sum * supply_factor]).  Cells that are not numbers are
    not part of the sum. *)
Theorem load_demand_bucket_sum {num : Type} `{Number num} df start end_ r zone sf res lbl cells :
  is_monotonic_increasing (rows df).*1 = true →
  load_demand df start end_ r zone sf = Ok res →
  (lbl, cells) ∈ f_rows res →
  ∃ sel s e k,
    col_map (columns df) !! strip (lower zone) = Some sel ∧
    f_columns res = [sel] ∧
    resolve_start start (rows df).*1 = Some s ∧
    resolve_end end_ (rows df).*1 = Some e ∧
    k ∈ bucket_range r (window s e (rows df)).*1 ∧
    lbl = label r k ∧
    cells = [Some (nmul (nsum (raw_values (col_pos sel (columns df))
                                 (in_bucket r k (window s e (rows df)))))
                        sf)].
Proof.
  intros Hm Hok Hin.
  destruct (load_demand_ok_inv _ _ _ _ _ _ _ Hok) as (sel & s & e & Hsel & Hs & He).
  rewrite (load_demand_sorted _ _ _ _ _ _ _ _ _ Hm Hsel Hs He) in Hok.
  case_bool_decide; [discriminate|]. cbn zeta in Hok.
  destruct (window s e (rows df)) as [|row W] eqn:HW; [discriminate|].
  injection Hok as <-. cbn [f_rows f_columns] in *.
  unfold spec_demand_rows in Hin. apply list_elem_of_fmap in Hin as (k & [= -> ->] & Hk).
  exists sel, s, e, k. rewrite HW. split_and!; done.
Qed.

Lemma load_demand_bucket_sum_witness :
  ∃ res, load_demand (num := Q) demand_hourly None None Daily "dk_2" (1 # 2)%Q = Ok res ∧
    ∃ sel s e k,
      col_map (columns demand_hourly) !! strip (lower "dk_2") = Some sel ∧
      f_columns res = [sel] ∧
      resolve_start None (rows demand_hourly).*1 = Some s ∧
      resolve_end None (rows demand_hourly).*1 = Some e ∧
      k ∈ bucket_range Daily (window s e (rows demand_hourly)).*1 ∧
      mk_ts 2024 2 1 0 = label Daily k ∧
      [Some (260 # 2)%Q]
      = [Some (nmul (nsum (raw_values (col_pos sel (columns demand_hourly))
                             (in_bucket Daily k (window s e (rows demand_hourly)))))
                    (1 # 2)%Q)].
Proof.
  eexists. split; [vm_compute; reflexivity|].
  eapply (load_demand_bucket_sum (num := Q) demand_hourly None None Daily "dk_2" (1 # 2)%Q).
  - vm_compute. reflexivity.
  - vm_compute. reflexivity.
  - decide_by_computation.
Defined.

(** C2, as stated, fails on a file that is not sorted by time: the rows
    are dated 2024-01-01, 2024-01-03, 2024-01-02 with the values 1, 3, 7.
    Without bounds the slice runs by position from the row of the minimum
    to the row of the maximum and leaves the third row out, so the bucket
    of 2024-01-02 is returned with the value 0, while the raw value that
    falls in this bucket is 7 and [supply_factor * 7] is 7/2. *)
Lemma load_demand_unsorted_file_misses_row :
  ∃ res,
    load_demand (num := Q) demand_unsorted None None Daily "DK_2" (1 # 2)%Q = Ok res ∧
    resolve_start None (rows demand_unsorted).*1 = Some (mk_ts 2024 1 1 0) ∧
    resolve_end None (rows demand_unsorted).*1 = Some (mk_ts 2024 1 3 0) ∧
    (mk_ts 2024 1 2 0, ["7"]) ∈ rows demand_unsorted ∧
    raw_values (num := Q) 0 (in_bucket Daily (bucket Daily (mk_ts 2024 1 2 0))
                               (rows demand_unsorted)) = [7%Q] ∧
    f_rows res = [ (mk_ts 2024 1 1 0, [Some (1 # 2)%Q]);
                   (mk_ts 2024 1 2 0, [Some (0 # 2)%Q]);
                   (mk_ts 2024 1 3 0, [Some (3 # 2)%Q]) ] ∧
    ¬ (0 # 2 == (1 # 2) * 7)%Q.
Proof.
  eexists. split; [vm_compute; reflexivity|].
  split_and!; [vm_compute; reflexivity | vm_compute; reflexivity | decide_by_computation
              | vm_compute; reflexivity | vm_compute; reflexivity | discriminate].
Qed.

(** C3, as the code has it.  On a price file sorted by time, every row of
    the returned frame is one aggregation bucket: its timestamp is the
    label of a bucket that lies between the bucket of one selected row and
    the last bucket of another, every row that contributes to it has its
    timestamp in the inclusive window from the resolved start to the
    resolved end, and its value in each column is the mean of the numbers
    the contributing rows hold in that column (missing when they hold
    none).  The label itself need not lie in the window. *)
Theorem load_prices_bucket_mean {num : Type} `{Number num} df start end_ r res lbl cells :
  is_monotonic_increasing (rows df).*1 = true →
  load_prices df start end_ r = Ok res →
  (lbl, cells) ∈ f_rows res →
  ∃ s e k,
    resolve_start start (rows df).*1 = Some s ∧
    resolve_end end_ (rows df).*1 = Some e ∧
    s ≤ e ∧
    lbl = label r k ∧
    (∃ t1 t2, t1 ∈ (window s e (rows df)).*1 ∧ t2 ∈ (window s e (rows df)).*1 ∧
              bucket r t1 ≤ k ≤ last_bucket r t2) ∧
    cells = (λ j, mean (raw_values j (in_bucket r k (window s e (rows df)))))
              <$> seq 0 (length (columns df)) ∧
    ∀ row, row ∈ in_bucket r k (window s e (rows df)) →
           row ∈ rows df ∧ s ≤ row.1 ≤ e ∧ bucket r row.1 = k.
Proof.
  intros Hm Hok Hin.
  destruct (load_prices_ok_inv _ _ _ _ _ Hok) as (Hreq & s & e & Hs & He).
  rewrite (load_prices_sorted _ _ _ _ _ _ Hm Hreq Hs He) in Hok.
  case_bool_decide as Hse; [discriminate|]. cbn zeta in Hok.
  destruct (window s e (rows df)) as [|row W] eqn:HW; [discriminate|].
  injection Hok as <-. cbn [f_rows] in Hin. rewrite <- HW in *.
  unfold spec_price_rows in Hin. apply list_elem_of_fmap in Hin as (k & [= -> ->] & Hk).
  exists s, e, k. split_and!; [done | done | lia | done | | done |].
  - by apply bucket_range_bounds.
  - intros row' Hrow'. unfold in_bucket, window in Hrow'.
    apply list_elem_of_filter in Hrow' as [Hb Hrow'].
    apply list_elem_of_filter in Hrow' as [Hw Hrow']. done.
Qed.

Lemma load_prices_bucket_mean_witness :
  ∃ res, load_prices (num := Q) prices_q1 None None ME = Ok res ∧
    ∃ s e k,
      resolve_start None (rows prices_q1).*1 = Some s ∧
      resolve_end None (rows prices_q1).*1 = Some e ∧
      s ≤ e ∧
      mk_ts 2024 2 29 0 = label ME k ∧
      (∃ t1 t2, t1 ∈ (window s e (rows prices_q1)).*1 ∧
                t2 ∈ (window s e (rows prices_q1)).*1 ∧
                bucket ME t1 ≤ k ≤ last_bucket ME t2) ∧
      [Some (12 # 1)%Q; None; Some (52 # 1)%Q; Some (8 # 1)%Q]
      = (λ j, mean (raw_values j (in_bucket ME k (window s e (rows prices_q1)))))
          <$> seq 0 (length (columns prices_q1)) ∧
      ∀ row, row ∈ in_bucket ME k (window s e (rows prices_q1)) →
             row ∈ rows prices_q1 ∧ s ≤ row.1 ≤ e ∧ bucket ME row.1 = k.
Proof.
  eexists. split; [vm_compute; reflexivity|].
  eapply (load_prices_bucket_mean (num := Q) prices_q1 None None ME).
  - vm_compute. reflexivity.
  - vm_compute. reflexivity.
  - decide_by_computation.
Defined.

(** C3, as stated, fails: with monthly prices dated on the first of each
    month and no bounds given, the window ends on 2024-03-01 while the
    last bucket is stamped 2024-03-31. *)
Lemma load_prices_label_outside_window :
  ∃ res cells,
    load_prices (num := Q) prices_q1 None None ME = Ok res ∧
    resolve_start None (rows prices_q1).*1 = Some (mk_ts 2024 1 1 0) ∧
    resolve_end None (rows prices_q1).*1 = Some (mk_ts 2024 3 1 0) ∧
    (mk_ts 2024 3 31 0, cells) ∈ f_rows res ∧
    ¬ (mk_ts 2024 1 1 0 ≤ mk_ts 2024 3 31 0 ≤ mk_ts 2024 3 1 0).
Proof.
  eexists _, [Some (14 # 1)%Q; Some (34 # 1)%Q; Some (54 # 1)%Q; Some (9 # 1)%Q].
  split_and!.
  - vm_compute. reflexivity.
  - vm_compute. reflexivity.
  - vm_compute. reflexivity.
  - decide_by_computation.
  - vm_compute. intros [_ Hle]. by apply Hle.
Qed.



(** ** Columns *)

(** C4, as the code has it.  When a column of the demand file matches the
    requested zone without regard to case (after trimming), the zone is
    accepted: the call never fails with a [FormatError], whatever it
    returns has the single column named exactly as the last matching
    column of the file is written, and on a file sorted by time it does
    return whenever the resolved bounds are in order and select a row.
    When no column matches, the call fails with a [FormatError]; unless
    the file has no data column at all, its message lists the first
    columns of the file, at most 20 of them, followed by ["..."] when
    there are more. *)
Theorem load_demand_zone_lookup {num : Type} `{Number num} df start end_ r zone sf :
  let key := strip (lower zone) in
  ((∃ c, c ∈ columns df ∧ strip (lower c) = key) →
     ∃ sel, last (filter (λ c, strip (lower c) = key) (columns df)) = Some sel ∧
            sel ∈ columns df ∧ strip (lower sel) = key ∧
            (∀ err, load_demand df start end_ r zone sf = Err err →
                    kind_of err ≠ FormatError) ∧
            (∀ res, load_demand df start end_ r zone sf = Ok res →
                    f_columns res = [sel]) ∧
            (is_monotonic_increasing (rows df).*1 = true →
             ∀ s e, resolve_start start (rows df).*1 = Some s →
                    resolve_end end_ (rows df).*1 = Some e →
                    s ≤ e → window s e (rows df) ≠ [] →
                    ∃ res, load_demand df start end_ r zone sf = Ok res ∧
                           f_columns res = [sel])) ∧
  ((∀ c, c ∈ columns df → strip (lower c) ≠ key) →
     ∃ err, load_demand df start end_ r zone sf = Err err ∧
            kind_of err = FormatError ∧
            ((columns df = [] ∧ ∃ msg, err = TooFewColumns msg) ∨
             ∃ marker, err = ZoneNotFound zone (take 20 (columns df) ++ marker) ∧
                       (length (take 20 (columns df)) ≤ 20)%nat ∧
                       marker = (if bool_decide (20 < length (columns df))%nat
                                 then ["..."] else []) ∧
                       message err
                       = "Zone '" +:+ zone +:+ "' not found in CSV columns. Available (sample): "
                           +:+ join ", " (take 20 (columns df) ++ marker))).
Proof.
  cbn zeta. split.
  - intros (c & Hc & Hkey).
    destruct (col_map (columns df) !! strip (lower zone)) as [sel|] eqn:Hsel.
    2:{ by destruct (proj1 (col_map_None _ _) Hsel c Hc). }
    destruct (col_map_Some _ _ _ Hsel) as [Hin Hk].
    exists sel. split_and!; [by rewrite <- col_map_lookup | done | done | | |].
    + intros err. rewrite (load_demand_valid _ _ _ _ _ _ _ Hsel). cbn zeta.
      destruct (ts_gt _ _); [by intros [= <-]|].
      destruct (loc_slice _ _ (rows df)) as [[|row W]|x] eqn:Hslice;
        [by intros [= <-] | discriminate |].
      intros [= <-]. by rewrite (loc_slice_err _ _ _ _ Hslice).
    + intros res. rewrite (load_demand_valid _ _ _ _ _ _ _ Hsel). cbn zeta.
      destruct (ts_gt _ _); [discriminate|].
      destruct (loc_slice _ _ (rows df)) as [[|row W]|x]; [discriminate| |discriminate].
      by intros [= <-].
    + intros Hm s e Hs He Hse HW.
      rewrite (load_demand_sorted _ _ _ _ _ _ _ _ _ Hm Hsel Hs He).
      rewrite bool_decide_eq_false_2 by lia. cbn zeta.
      destruct (window s e (rows df)); [done|]. eauto.
  - intros Hnone%col_map_None. unfold load_demand.
    case_bool_decide as Hfew.
    + eexists. split_and!; [reflexivity..|]. left.
      split; [|by eexists]. destruct (columns df); [reflexivity | cbn in Hfew; lia].
    + rewrite Hnone. eexists. split_and!; [reflexivity..|]. right.
      eexists. split_and!; [reflexivity | | reflexivity | reflexivity].
      rewrite length_take. lia.
Qed.

Lemma load_demand_zone_lookup_witness :
  ∃ res, load_demand (num := Q) demand_hourly None None ME "dk_2" (1 # 2)%Q = Ok res ∧
         f_columns res = ["DK_2"].
Proof.
  destruct (load_demand_zone_lookup (num := Q) demand_hourly None None ME "dk_2" (1 # 2)%Q)
    as [Hmatch Hnone].
  destruct Hmatch as (sel & Hlast & _ & _ & _ & _ & Hok).
  - exists "DK_2". split; [decide_by_computation | reflexivity].
  - injection Hlast as <-.
    apply (Hok eq_refl (mk_ts 2024 1 31 22) (mk_ts 2024 2 1 2)).
    + reflexivity.
    + reflexivity.
    + vm_compute. discriminate.
    + vm_compute. discriminate.
Defined.

(** C4, as stated, fails: the zone matches a column, yet the call does
    not succeed when the requested start lies after the data. *)
Lemma load_demand_matching_zone_fails :
  (∃ c, c ∈ columns demand_hourly ∧ strip (lower c) = strip (lower "dk_2")) ∧
  load_demand (num := Q) demand_hourly (Some (mk_ts 2024 6 1 0)) None ME "dk_2" (1 # 2)%Q
  = Err StartAfterEnd.
Proof.
  split; [|vm_compute; reflexivity].
  exists "DK_2". split; [decide_by_computation | reflexivity].
Qed.

(** C6, as the code has it.  The frame [load_prices] returns has all the
    data columns of the file, in order and under their normalized names,
    the columns beyond coal, gas and oil included, and these are treated
    like the required ones: with [W] the rows the slice selects, the frame
    has one row per bucket of [W], and its cell in any column is the mean
    of the numbers that the rows of the bucket hold in that column.  A
    cell that holds no number is converted to a missing value: it is left
    out of the mean (the returned cell is missing when the bucket holds no
    number in the column) and raises no error.  Whether the call fails,
    and with which error, does not depend on what the cells hold, and two
    files that differ only in cells that hold no number (or hold the same
    number) give the same result. *)
Theorem load_prices_keeps_columns_and_coerces {num : Type} `{Number num} df start end_ r :
  (∀ res, load_prices df start end_ r = Ok res →
          f_columns res = normalize_columns (columns df) ∧
          Forall (λ row, length row.2 = length (columns df)) (f_rows res) ∧
          ∃ W, loc_slice (resolve_start start (rows df).*1) (resolve_end end_ (rows df).*1)
                 (rows df) = Ok W ∧
               W ≠ [] ∧
               f_rows res
               = (λ k, (label r k,
                        (λ j, mean (raw_values j (in_bucket r k (sort_index W))))
                          <$> seq 0 (length (columns df))))
                   <$> bucket_range r W.*1) ∧
  (∀ rs', rs'.*1 = (rows df).*1 →
          ∀ err, load_prices df start end_ r = Err err ↔
                 load_prices (with_rows df rs') start end_ r = Err err) ∧
  (∀ rs', same_numbers (rows df) rs' →
          load_prices (with_rows df rs') start end_ r = load_prices df start end_ r).
Proof.
  split_and!.
  - intros res Hok. destruct (load_prices_ok_inv _ _ _ _ _ Hok) as [Hreq _].
    rewrite (load_prices_valid _ _ _ _ Hreq) in Hok. cbn zeta in Hok.
    destruct (ts_gt _ _); [discriminate|].
    destruct (loc_slice _ _ (rows df)) as [[|row W]|x]; [discriminate| |discriminate].
    injection Hok as <-. cbn [f_columns f_rows].
    split_and!; [reflexivity | apply resample_row_length |].
    exists (row :: W). split_and!; [reflexivity | done |].
    apply (resample_mean_any r (length (columns df)) (row :: W)).
  - intros rs' Hidx err. unfold load_prices. cbn [columns rows with_rows].
    case_bool_decide; [done|]. case_bool_decide; [done|]. rewrite Hidx.
    destruct (ts_gt _ _); [done|].
    unfold coerce_all. rewrite !loc_slice_fmap by reflexivity.
    pose proof (loc_slice_same_index (resolve_start start (rows df).*1)
                  (resolve_end end_ (rows df).*1) (rows df) rs' (eq_sym Hidx)) as Hsame.
    destruct (loc_slice _ _ (rows df)) as [l|x], (loc_slice _ _ rs') as [l'|y];
      [| done | done | by subst].
    destruct l, l'; try discriminate; cbn; done.
  - intros rs' Hsame. unfold load_prices. cbn [columns rows with_rows].
    by rewrite (coerce_all_same _ _ _ Hsame), (same_numbers_index _ _ Hsame).
Qed.

Lemma load_prices_keeps_columns_and_coerces_witness :
  ∃ res, load_prices (num := Q) prices_q1 None None ME = Ok res ∧
         f_columns res = ["coal"; "gas"; "oil"; "lignite"] ∧
         Forall (λ row, length row.2 = 4%nat) (f_rows res) ∧
         ∃ W, loc_slice (Some (mk_ts 2024 1 1 0)) (Some (mk_ts 2024 3 1 0)) (rows prices_q1)
              = Ok W ∧
              W ≠ [] ∧
              f_rows res
              = (λ k, (label ME k,
                       (λ j, mean (raw_values j (in_bucket ME k (sort_index W))))
                         <$> seq 0 4))
                  <$> bucket_range ME W.*1.
Proof.
  pose (res := {| f_columns := ["coal"; "gas"; "oil"; "lignite"];
                  f_rows := spec_price_rows (num := Q) ME 4 (rows prices_q1) |}).
  assert (Hok : load_prices (num := Q) prices_q1 None None ME = Ok res)
    by (vm_compute; reflexivity).
  exists res. split; [exact Hok|].
  exact (proj1 (load_prices_keeps_columns_and_coerces (num := Q) prices_q1 None None ME)
           res Hok).
Defined.

(** C6, as stated, fails: the extra column does not reach the result
    unchanged.  The file has a column [Lignite] with the cells 7 and 9 in
    January and n/a in February; the returned frame has no column of that
    name but a column [lignite], with the mean 8 for January and a missing
    value for February. *)
Lemma load_prices_extra_column_changes :
  ∃ res,
    load_prices (num := Q) prices_daily None None ME = Ok res ∧
    columns prices_daily !! 3%nat = Some "Lignite" ∧
    ((λ row, row.2 !! 3%nat) <$> rows prices_daily) = [Some "7"; Some "9"; Some "n/a"] ∧
    f_columns res !! 3%nat = Some "lignite" ∧
    ¬ ("Lignite" ∈ f_columns res) ∧
    ((λ row, row.2 !! 3%nat) <$> f_rows res) = [Some (Some (16 # 2)%Q); Some None].
Proof.
  eexists. split; [vm_compute; reflexivity|].
  split_and!; [reflexivity | reflexivity | reflexivity | decide_by_computation | reflexivity].
Qed.

(** A price file with a lignite column and a cell that holds no number:
    the column is kept, the cell counts as missing. *)
Example load_prices_example :
  load_prices (num := Q) prices_q1 None None MS
  = Ok {| f_columns := ["coal"; "gas"; "oil"; "lignite"];
          f_rows := [ (mk_ts 2024 1 1 0, [Some 10; Some 30; Some 50; Some 7]%Q);
                      (mk_ts 2024 2 1 0, [Some 12; None; Some 52; Some 8]%Q);
                      (mk_ts 2024 3 1 0, [Some 14; Some 34; Some 54; Some 9]%Q) ] |}.
Proof. vm_compute. reflexivity. Qed.

(** ** Attribute maps *)

(** C5. Given a file with the two required columns, each attribute-map
    loader pairs the fuel cell of every row with the value cell of the
    same row, and the mapping holds for a fuel name the value of the last
    row of the file that carries this name (and nothing for a name that no
    row carries). *)
Theorem attribute_map_last_wins df :
  (["fuel"; "capacity"] ⊆ a_columns df →
     ∃ m, load_storage df = Ok m ∧ load_plant_capacity df = Ok m ∧
          ∀ k, m !! k
               = attr_cell "capacity" df
                   <$> last (filter (λ row, attr_cell "fuel" df row = k) (a_rows df))) ∧
  (["fuel"; "efficiency"] ⊆ a_columns df →
     ∃ m, load_efficiency df = Ok m ∧
          ∀ k, m !! k
               = attr_cell "efficiency" df
                   <$> last (filter (λ row, attr_cell "fuel" df row = k) (a_rows df))).
Proof.
  split; intros Hcols.
  - destruct (load_attr_lookup "storage.csv" "fuel" "capacity" df Hcols) as (m & Hm & Hlook).
    exists m. split_and!; [exact Hm | | exact Hlook].
    unfold load_plant_capacity, load_attr. unfold load_attr in Hm.
    by destruct (bool_decide _).
  - destruct (load_attr_lookup "efficiency.csv" "fuel" "efficiency" df Hcols)
      as (m & Hm & Hlook).
    exists m. split_and!; done.
Qed.

Lemma attribute_map_last_wins_witness :
  ∃ m, load_storage storage_csv = Ok m ∧ load_plant_capacity storage_csv = Ok m ∧
       m !! "coal" = Some "15" ∧ m !! "gas" = Some "20" ∧ m !! "oil" = None.
Proof.
  destruct (attribute_map_last_wins storage_csv) as [Hcap _].
  destruct Hcap as (m & Hs & Hp & Hlook); [decide_by_computation|].
  exists m. split_and!; [exact Hs | exact Hp | ..]; rewrite Hlook; reflexivity.
Defined.

(** The file of the specification's example: coal 10, gas 20, coal 15. *)
Example load_storage_example :
  load_storage storage_csv = Ok {[ "coal" := "15"; "gas" := "20" ]}.
Proof. vm_compute. reflexivity. Qed.

(** ** Errors *)

(** C7. A price file that, once its column names are trimmed and
    lower-cased, lacks one of coal, gas and oil is rejected with a
    [FormatError] and nothing is returned: either the file has no data
    column at all, or the error names exactly the required columns that
    are absent. *)
Theorem load_prices_missing_required {num : Type} `{Number num} df start end_ r :
  (∃ c, c ∈ required ∧ c ∉ normalize_columns (columns df)) →
  ∃ e, load_prices df start end_ r = Err e ∧ kind_of e = FormatError ∧
       ((∃ msg, e = TooFewColumns msg) ∨
        ∃ missing, e = MissingRequired missing (normalize_columns (columns df)) ∧
                   ∀ c, c ∈ missing ↔ c ∈ required ∧ c ∉ normalize_columns (columns df)).
Proof.
  intros (c & Hreq & Hmiss). unfold load_prices.
  case_bool_decide as Hfew; [by eexists; split_and!; [| |left; eexists]|].
  set (missing := filter (λ c, c ∉ normalize_columns (columns df)) required).
  assert (Hc : c ∈ missing) by (by apply list_elem_of_filter).
  rewrite bool_decide_eq_true_2 by (intros Hnil; rewrite Hnil in Hc; by apply elem_of_nil in Hc).
  eexists; split_and!; [reflexivity..|]. right. exists missing. split; [reflexivity|].
  intros c'. unfold missing. rewrite list_elem_of_filter. tauto.
Qed.

Lemma load_prices_missing_required_witness :
  ∃ e, load_prices (num := Q) prices_no_oil None None ME = Err e ∧
       kind_of e = FormatError ∧
       ((∃ msg, e = TooFewColumns msg) ∨
        ∃ missing, e = MissingRequired missing (normalize_columns (columns prices_no_oil)) ∧
                   ∀ c, c ∈ missing ↔
                        c ∈ required ∧ c ∉ normalize_columns (columns prices_no_oil)).
Proof.
  apply (load_prices_missing_required (num := Q) prices_no_oil None None ME).
  exists "oil". split; decide_by_computation.
Defined.

(** C8. Once the columns are accepted, a resolved start that lies strictly
    after the resolved end makes both loaders fail with a [RangeError];
    the bounds are resolved from the arguments, the data's minimum and
    maximum, and the month-end extension of an explicit end. *)
Theorem start_after_end_is_range_error {num : Type} `{Number num} df start end_ r zone sf s e :
  resolve_start start (rows df).*1 = Some s →
  resolve_end end_ (rows df).*1 = Some e →
  e < s →
  (required ⊆ normalize_columns (columns df) →
     load_prices df start end_ r = Err StartAfterEnd) ∧
  (is_Some (col_map (columns df) !! strip (lower zone)) →
     load_demand df start end_ r zone sf = Err StartAfterEnd) ∧
  kind_of StartAfterEnd = RangeError.
Proof.
  intros Hs He Hlt. split_and!; [| |reflexivity].
  - intros Hreq. rewrite load_prices_valid by exact Hreq. cbn zeta.
    rewrite Hs, He. cbn [ts_gt]. by rewrite bool_decide_eq_true_2.
  - intros [sel Hsel]. rewrite (load_demand_valid _ _ _ _ _ _ _ Hsel). cbn zeta.
    rewrite Hs, He. cbn [ts_gt]. by rewrite bool_decide_eq_true_2.
Qed.

Lemma start_after_end_is_range_error_witness :
  load_prices (num := Q) prices_q1 (Some (mk_ts 2024 6 1 0)) None ME = Err StartAfterEnd ∧
  load_demand (num := Q) prices_q1 (Some (mk_ts 2024 6 1 0)) None ME "lignite" (1 # 2)%Q
  = Err StartAfterEnd.
Proof.
  destruct (start_after_end_is_range_error (num := Q) prices_q1
              (Some (mk_ts 2024 6 1 0)) None ME "lignite" (1 # 2)%Q
              (mk_ts 2024 6 1 0) (mk_ts 2024 3 1 0)) as (Hprices & Hdemand & _).
  - reflexivity.
  - vm_compute. reflexivity.
  - vm_compute. reflexivity.
  - split; [apply Hprices | apply Hdemand]; decide_by_computation.
Defined.



(** * Further properties of the loaders *)

(** ** The calendar, month by month *)

Lemma month_scan_ok : month_scan (Z.to_nat 4800) 0 = true.
Proof. vm_compute. reflexivity. Qed.

Lemma month_scan_spec n M0 M :
  month_scan n M0 = true → M0 ≤ M < M0 + Z.of_nat n →
  let mp := M mod 12 in
  let m := if mp <? 10 then mp + 3 else mp - 9 in
  let y := if m <=? 2 then M / 12 + 1 else M / 12 in
  0 ≤ month_start M ∧ month_next M ≤ 146097 ∧
  era_month (month_start M) = M ∧ era_month (month_next M - 1) = M ∧
  month_next M - month_start M = days_in_month y m.
Proof.
  revert M0. induction n as [|n IH]; intros M0 Hall HM; [lia|].
  cbn [month_scan] in Hall. cbn zeta in Hall.
  repeat (apply andb_true_iff in Hall as [Hall ?]).
  destruct (decide (M = M0)) as [->|Hne]; [|apply (IH (M0 + 1)); [assumption | lia]].
  cbn zeta. split_and!; lia.
Qed.

Lemma month_facts M :
  0 ≤ M < 4800 →
  let mp := M mod 12 in
  let m := if mp <? 10 then mp + 3 else mp - 9 in
  let y := if m <=? 2 then M / 12 + 1 else M / 12 in
  0 ≤ month_start M ∧ month_next M ≤ 146097 ∧
  era_month (month_start M) = M ∧ era_month (month_next M - 1) = M ∧
  month_next M - month_start M = days_in_month y m.
Proof.
  intros HM. apply (month_scan_spec _ 0 M month_scan_ok).
  rewrite Z2Nat.id; lia.
Qed.

Lemma days_in_month_pos y m : 28 ≤ days_in_month y m ≤ 31.
Proof.
  unfold days_in_month. destruct (m =? 2); [destruct (is_leap_year y); lia|].
  destruct (_ || _); lia.
Qed.

Lemma is_leap_year_period y e : is_leap_year (y + 400 * e) = is_leap_year y.
Proof.
  unfold is_leap_year.
  replace (y + 400 * e) with (y + (100 * e) * 4) at 1 by lia.
  replace (y + 400 * e) with (y + (4 * e) * 100) at 1 by lia.
  replace (y + 400 * e) with (y + e * 400) by lia.
  by rewrite !Z.mod_add by lia.
Qed.

Lemma days_in_month_period y e m : days_in_month (y + 400 * e) m = days_in_month y m.
Proof. unfold days_in_month. by rewrite is_leap_year_period. Qed.

(** Inside a month, the day of the era determines the month. *)
Lemma era_month_inside M doe :
  0 ≤ M < 4800 → month_start M ≤ doe < month_next M → era_month doe = M.
Proof.
  intros HM Hdoe. destruct (month_facts M HM) as (H0 & H1 & Hfirst & Hlast & _).
  apply Z.le_antisymm.
  - rewrite <- Hlast. apply era_month_mono; lia.
  - rewrite <- Hfirst at 1. apply era_month_mono; lia.
Qed.

Lemma era_month_split doe :
  0 ≤ doe < 146097 →
  0 ≤ era_month doe < 4800 ∧
  year_of_era doe = era_month doe / 12 ∧
  month_of_year (day_of_year doe) = era_month doe mod 12.
Proof.
  intros Hdoe. destruct (era_day_facts doe Hdoe) as (Hmp & Hyoe & _).
  unfold era_month. split; [lia|]. split.
  - apply (Z.div_unique _ 12 _ (month_of_year (day_of_year doe))); lia.
  - apply (Z.mod_unique _ 12 (year_of_era doe)); lia.
Qed.

(** Conversely the month determines where the day lies. *)
Lemma month_of_era_day doe :
  0 ≤ doe < 146097 →
  month_start (era_month doe) ≤ doe < month_next (era_month doe).
Proof.
  intros Hdoe. destruct (era_month_split doe Hdoe) as (HM & _ & _).
  set (M := era_month doe) in *.
  destruct (month_facts M HM) as (H0 & H1 & Hfirst & Hlast & Hlen).
  pose proof (days_in_month_pos
    (if (if M mod 12 <? 10 then M mod 12 + 3 else M mod 12 - 9) <=? 2 then M / 12 + 1 else M / 12)
    (if M mod 12 <? 10 then M mod 12 + 3 else M mod 12 - 9)) as Hpos.
  cbn zeta in Hlen. split.
  - destruct (decide (month_start M ≤ doe)) as [|Hlt]; [done|]. exfalso.
    assert (HM0 : 0 < M).
    { destruct (decide (M = 0)) as [HM0|]; [|lia].
      rewrite HM0 in Hlt. change (month_start 0) with 0 in Hlt. lia. }
    destruct (month_facts (M - 1) ltac:(lia)) as (_ & _ & _ & Hprev & Hlen').
    pose proof (days_in_month_pos
      (if (if (M - 1) mod 12 <? 10 then (M - 1) mod 12 + 3 else (M - 1) mod 12 - 9) <=? 2
       then (M - 1) / 12 + 1 else (M - 1) / 12)
      (if (M - 1) mod 12 <? 10 then (M - 1) mod 12 + 3 else (M - 1) mod 12 - 9)) as Hpos'.
    cbn zeta in Hlen'.
    assert (Hnext : month_next (M - 1) = month_start M).
    { unfold month_next. destruct (M - 1 =? 4799) eqn:Heq; [lia|]. f_equal. lia. }
    rewrite Hnext in Hprev, Hlen'.
    assert (era_month doe ≤ era_month (month_start M - 1)) by (apply era_month_mono; lia).
    fold M in H. lia.
  - destruct (decide (doe < month_next M)) as [|Hge]; [done|]. exfalso.
    unfold month_next in *. destruct (M =? 4799) eqn:Heq; [lia|].
    destruct (month_facts (M + 1) ltac:(lia)) as (_ & _ & Hfirst' & _ & _).
    assert (era_month (month_start (M + 1)) ≤ era_month doe) by (apply era_month_mono; lia).
    fold M in H. lia.
Qed.

(** The months counted from a first of March: month [m] of year [y] is
    month [12 * y + m - 3]; it lies in the era [_ / 4800]. *)
Lemma month_decompose y m :
  1 ≤ m ≤ 12 →
  let y' := if m <=? 2 then y - 1 else y in
  let mp := if 2 <? m then m - 3 else m + 9 in
  let yoe := y' - y' / 400 * 400 in
  0 ≤ yoe < 400 ∧ 0 ≤ mp < 12 ∧
  (12 * y + m - 3) / 4800 = y' / 400 ∧
  (12 * y + m - 3) mod 4800 = 12 * yoe + mp ∧
  (12 * yoe + mp) / 12 = yoe ∧ (12 * yoe + mp) mod 12 = mp.
Proof.
  intros Hm. cbn zeta.
  set (y' := if m <=? 2 then y - 1 else y).
  set (mp := if 2 <? m then m - 3 else m + 9).
  assert (Hmp : 0 ≤ mp < 12) by (subst mp; destruct (2 <? m) eqn:?; lia).
  assert (HMt : 12 * y + m - 3 = 12 * y' + mp).
  { subst y' mp. destruct (m <=? 2) eqn:?, (2 <? m) eqn:?; lia. }
  pose proof (Z.div_mod y' 400 ltac:(lia)) as Hdm.
  pose proof (Z.mod_pos_bound y' 400 ltac:(lia)) as Hb.
  assert (Hyoe : y' - y' / 400 * 400 = y' mod 400) by lia.
  rewrite Hyoe, HMt. split; [lia|]. split; [lia|]. split_and!.
  - symmetry. apply (Z.div_unique _ 4800 _ (12 * (y' mod 400) + mp)); lia.
  - symmetry. apply (Z.mod_unique _ 4800 (y' / 400)); lia.
  - symmetry. apply (Z.div_unique _ 12 _ mp); lia.
  - symmetry. apply (Z.mod_unique _ 12 (y' mod 400)); lia.
Qed.

Lemma days_from_civil_month y m d :
  1 ≤ m ≤ 12 →
  days_from_civil y m d
  = 146097 * ((12 * y + m - 3) / 4800) + month_start ((12 * y + m - 3) mod 4800)
    + d - 1 - 719468.
Proof.
  intros Hm. destruct (month_decompose y m Hm) as (_ & _ & Hera & HM & Hdiv & Hmod).
  cbn zeta in *. rewrite Hera, HM. unfold month_start. rewrite Hdiv, Hmod.
  unfold days_from_civil, days_before_year. lia.
Qed.

Lemma days_in_month_month y m :
  1 ≤ m ≤ 12 →
  days_in_month y m
  = month_next ((12 * y + m - 3) mod 4800) - month_start ((12 * y + m - 3) mod 4800).
Proof.
  intros Hm. destruct (month_decompose y m Hm) as (Hyoe & Hmp & Hera & HM & Hdiv & Hmod).
  cbn zeta in *. rewrite HM.
  set (y' := if m <=? 2 then y - 1 else y) in *.
  set (mp := if 2 <? m then m - 3 else m + 9) in *.
  set (yoe := y' - y' / 400 * 400) in *.
  destruct (month_facts (12 * yoe + mp) ltac:(lia)) as (_ & _ & _ & _ & Hlen).
  cbn zeta in Hlen. rewrite Hlen, Hdiv, Hmod.
  assert (Hm' : (if mp <? 10 then mp + 3 else mp - 9) = m).
  { subst mp. destruct (2 <? m) eqn:?; [destruct (m - 3 <? 10) eqn:?|destruct (m + 9 <? 10) eqn:?]; lia. }
  rewrite Hm'.
  assert (Hy : y = (if m <=? 2 then yoe + 1 else yoe) + 400 * (y' / 400)).
  { subst yoe y'. destruct (m <=? 2); lia. }
  rewrite Hy at 1. apply days_in_month_period.
Qed.

Lemma civil_from_days_month z :
  let era := (z + 719468) / 146097 in
  let doe := (z + 719468) mod 146097 in
  let k := 4800 * era + era_month doe + 2 in
  civil_from_days z = (k / 12, k mod 12 + 1, doe - month_start (era_month doe) + 1).
Proof.
  cbn zeta. unfold civil_from_days.
  replace (z + 719468 - (z + 719468) / 146097 * 146097) with ((z + 719468) mod 146097)
    by (rewrite Z.mod_eq by lia; lia).
  set (era := (z + 719468) / 146097). set (doe := (z + 719468) mod 146097).
  assert (Hdoe : 0 ≤ doe < 146097) by (apply Z.mod_pos_bound; lia).
  destruct (era_month_split doe Hdoe) as (HM & Hyoe & Hmp).
  destruct (era_day_facts doe Hdoe) as (Hmpb & Hyoeb & _).
  assert (Hd : day_of_year doe - (153 * month_of_year (day_of_year doe) + 2) / 5 + 1
               = doe - month_start (era_month doe) + 1).
  { unfold month_start, days_before_year. rewrite <- Hyoe, <- Hmp.
    unfold day_of_year at 1. lia. }
  rewrite Hd. set (mp := month_of_year (day_of_year doe)) in *.
  set (yoe := year_of_era doe) in *.
  assert (Hk : 4800 * era + era_month doe + 2 = 12 * (yoe + era * 400) + (mp + 2))
    by (unfold era_month; lia).
  rewrite Hk. destruct (mp <? 10) eqn:Hlt.
  - replace (mp + 3 <=? 2) with false by (symmetry; apply Z.leb_gt; lia).
    do 2 f_equal.
    + apply (Z.div_unique _ 12 _ (mp + 2)); lia.
    + rewrite <- (Z.mod_unique _ 12 (yoe + era * 400) (mp + 2)); lia.
  - replace (mp - 9 <=? 2) with true by (symmetry; apply Z.leb_le; lia).
    do 2 f_equal.
    + apply (Z.div_unique _ 12 _ (mp - 10)); lia.
    + rewrite <- (Z.mod_unique _ 12 (yoe + era * 400 + 1) (mp - 10)); lia.
Qed.

(** The two conversions are inverse to each other on the dates of the
    calendar. *)
Lemma civil_from_days_from_civil y m d :
  1 ≤ m ≤ 12 → 1 ≤ d ≤ days_in_month y m →
  civil_from_days (days_from_civil y m d) = (y, m, d).
Proof.
  intros Hm Hd. rewrite civil_from_days_month, days_from_civil_month by exact Hm. cbn zeta.
  rewrite days_in_month_month in Hd by exact Hm.
  set (E := (12 * y + m - 3) / 4800) in *. set (M := (12 * y + m - 3) mod 4800) in *.
  assert (HM : 0 ≤ M < 4800) by (apply Z.mod_pos_bound; lia).
  destruct (month_facts M HM) as (H0 & H1 & _).
  set (D := month_start M + d - 1).
  replace (146097 * E + month_start M + d - 1 - 719468 + 719468) with (146097 * E + D)
    by (subst D; lia).
  assert (HD : 0 ≤ D < 146097) by (subst D; lia).
  rewrite <- (Z.div_unique (146097 * E + D) 146097 E D) by lia.
  rewrite <- (Z.mod_unique (146097 * E + D) 146097 E D) by lia.
  rewrite (era_month_inside M D HM) by (subst D; lia).
  pose proof (Z.div_mod (12 * y + m - 3) 4800 ltac:(lia)) as Hdm. fold E M in Hdm.
  replace (4800 * E + M + 2) with (12 * y + (m - 1)) by lia.
  f_equal; [f_equal|].
  - symmetry. apply (Z.div_unique _ 12 _ (m - 1)); lia.
  - rewrite <- (Z.mod_unique _ 12 y (m - 1)); lia.
  - subst D. lia.
Qed.

Lemma days_from_civil_from_days z y m d :
  civil_from_days z = (y, m, d) →
  1 ≤ m ≤ 12 ∧ 1 ≤ d ≤ days_in_month y m ∧ days_from_civil y m d = z.
Proof.
  rewrite civil_from_days_month. cbn zeta.
  set (era := (z + 719468) / 146097). set (doe := (z + 719468) mod 146097).
  assert (Hdoe : 0 ≤ doe < 146097) by (apply Z.mod_pos_bound; lia).
  destruct (era_month_split doe Hdoe) as (HM & _ & _).
  pose proof (month_of_era_day doe Hdoe) as Hin.
  set (M := era_month doe) in *. set (k := 4800 * era + M + 2).
  intros [= <- <- <-].
  pose proof (Z.mod_pos_bound k 12 ltac:(lia)) as Hkm.
  pose proof (Z.div_mod k 12 ltac:(lia)) as Hkd.
  assert (HMt : 12 * (k / 12) + (k mod 12 + 1) - 3 = 4800 * era + M) by (subst k; lia).
  assert (HE : (12 * (k / 12) + (k mod 12 + 1) - 3) / 4800 = era)
    by (rewrite HMt; symmetry; apply (Z.div_unique _ 4800 _ M); lia).
  assert (HM' : (12 * (k / 12) + (k mod 12 + 1) - 3) mod 4800 = M)
    by (rewrite HMt; symmetry; apply (Z.mod_unique _ 4800 era); lia).
  split; [lia|].
  rewrite days_in_month_month, days_from_civil_month by lia. rewrite HE, HM'.
  pose proof (Z.div_mod (z + 719468) 146097 ltac:(lia)) as Hz. fold era doe in Hz.
  split; lia.
Qed.

(** ** The month-end offset *)

Lemma shift_month_same {A} (F : Z → Z → A) m :
  1 ≤ m ≤ 12 →
  (let '(month, dy) := if (m + 0) mod 12 =? 0 then (12, (m + 0) / 12 - 1)
                       else ((m + 0) mod 12, (m + 0) / 12) in
   F month dy) = F m 0.
Proof.
  intros Hm. rewrite Z.add_0_r. destruct (decide (m = 12)) as [->|Hne]; [reflexivity|].
  rewrite Z.mod_small, Z.div_small by lia.
  by replace (m =? 0) with false by (symmetry; apply Z.eqb_neq; lia).
Qed.

Lemma shift_month_next {A} (F : Z → Z → A) m :
  1 ≤ m ≤ 12 →
  (let '(month, dy) := if (m + 1) mod 12 =? 0 then (12, (m + 1) / 12 - 1)
                       else ((m + 1) mod 12, (m + 1) / 12) in
   F month dy) = if m =? 12 then F 1 1 else F (m + 1) 0.
Proof.
  intros Hm. destruct (decide (m = 12)) as [->|Hne]; [reflexivity|].
  replace (m =? 12) with false by (symmetry; apply Z.eqb_neq; lia).
  destruct (decide (m = 11)) as [->|Hne']; [reflexivity|].
  rewrite Z.mod_small, Z.div_small by lia.
  by replace (m + 1 =? 0) with false by (symmetry; apply Z.eqb_neq; lia).
Qed.

Lemma MonthEnd_date t y m d :
  ts_date t = (y, m, d) →
  MonthEnd 1 t
  = let '(y2, m2) := if d <? days_in_month y m then (y, m) else next_month y m in
    days_from_civil y2 m2 (days_in_month y2 m2) * NS_PER_DAY + ts_time t.
Proof.
  intros Hdate. destruct (days_from_civil_from_days _ _ _ _ Hdate) as (Hm & Hd & _).
  unfold MonthEnd. rewrite Hdate. unfold shift_month_end. rewrite Hdate.
  unfold ts_replace_date, roll_convention, next_month. change (0 <? 1) with true. cbn [andb].
  destruct (d <? days_in_month y m) eqn:Hlt.
  - change (1 - 1) with 0.
    rewrite (shift_month_same
               (λ month dy, days_from_civil (y + dy) month (days_in_month (y + dy) month)
                            * NS_PER_DAY + ts_time t)) by exact Hm.
    cbn beta. by rewrite Z.add_0_r.
  - change ((1 <=? 0) && (days_in_month y m <? d)) with false. cbn iota.
    rewrite (shift_month_next
               (λ month dy, days_from_civil (y + dy) month (days_in_month (y + dy) month)
                            * NS_PER_DAY + ts_time t)) by exact Hm.
    cbn beta. destruct (m =? 12); [reflexivity|]. by rewrite Z.add_0_r.
Qed.

Lemma days_from_civil_day y m d : days_from_civil y m d = days_from_civil y m 1 + d - 1.
Proof. unfold days_from_civil. lia. Qed.

(** ** Buckets are periods of time *)

Lemma NS_PER_DAY_pos : 0 < NS_PER_DAY.
Proof. reflexivity. Qed.

Lemma NS_PER_HOUR_pos : 0 < NS_PER_HOUR.
Proof. reflexivity. Qed.

Lemma tick_period w t : 0 < w → t / w * w ≤ t < (t / w + 1) * w.
Proof.
  intros Hw. pose proof (Z.div_mod t w ltac:(lia)). pose proof (Z.mod_pos_bound t w Hw). lia.
Qed.

Lemma month_of_index k : 1 ≤ k mod 12 + 1 ≤ 12.
Proof. pose proof (Z.mod_pos_bound k 12 ltac:(lia)). lia. Qed.

Lemma month_index_civil t y m d :
  ts_date t = (y, m, d) → 1 ≤ m ≤ 12 →
  month_index t = 12 * y + (m - 1) ∧ month_index t / 12 = y ∧ month_index t mod 12 + 1 = m.
Proof.
  intros Hdate Hm. unfold month_index. rewrite Hdate. split; [lia|]. split.
  - symmetry. apply (Z.div_unique _ 12 _ (m - 1)); lia.
  - rewrite <- (Z.mod_unique (y * 12 + (m - 1)) 12 y (m - 1)); lia.
Qed.

Lemma label_ME_next k : label ME k + NS_PER_DAY = label MS (k + 1).
Proof.
  unfold label. cbn zeta.
  pose proof (month_of_index k) as Hm. pose proof (month_of_index (k + 1)) as Hm'.
  rewrite (days_from_civil_month _ _ _ Hm), (days_from_civil_month _ _ _ Hm').
  rewrite (days_in_month_month _ _ Hm).
  pose proof (Z.div_mod k 12 ltac:(lia)) as Hk.
  pose proof (Z.div_mod (k + 1) 12 ltac:(lia)) as Hk'.
  replace (12 * (k / 12) + (k mod 12 + 1) - 3) with (k - 2) by lia.
  replace (12 * ((k + 1) / 12) + ((k + 1) mod 12 + 1) - 3) with (k - 2 + 1) by lia.
  set (Mt := k - 2).
  pose proof (Z.div_mod Mt 4800 ltac:(lia)) as HMt.
  pose proof (Z.mod_pos_bound Mt 4800 ltac:(lia)) as Hb.
  unfold month_next. destruct (Mt mod 4800 =? 4799) eqn:Hlast.
  - apply Z.eqb_eq in Hlast.
    rewrite <- (Z.div_unique (Mt + 1) 4800 (Mt / 4800 + 1) 0) by lia.
    rewrite <- (Z.mod_unique (Mt + 1) 4800 (Mt / 4800 + 1) 0) by lia.
    change (month_start 0) with 0. lia.
  - apply Z.eqb_neq in Hlast.
    rewrite <- (Z.div_unique (Mt + 1) 4800 (Mt / 4800) (Mt mod 4800 + 1)) by lia.
    rewrite <- (Z.mod_unique (Mt + 1) 4800 (Mt / 4800) (Mt mod 4800 + 1)) by lia.
    lia.
Qed.

Lemma month_period t :
  label MS (month_index t) ≤ t < label MS (month_index t + 1).
Proof.
  destruct (ts_date t) as [[y m] d] eqn:Hdate.
  destruct (days_from_civil_from_days _ _ _ _ Hdate) as (Hm & Hd & Hz).
  destruct (month_index_civil _ _ _ _ Hdate Hm) as (_ & Hy & Hm').
  rewrite <- label_ME_next. unfold label. cbn zeta. rewrite Hy, Hm'.
  rewrite (days_from_civil_month y m d Hm) in Hz.
  rewrite (days_from_civil_month y m 1 Hm).
  rewrite (days_from_civil_month y m (days_in_month y m) Hm).
  pose proof (tick_period NS_PER_DAY t NS_PER_DAY_pos) as Ht.
  set (z := t / NS_PER_DAY) in *. pose proof NS_PER_DAY_pos. nia.
Qed.

(** A timestamp lies in the period of its bucket. *)
Lemma bucket_period r t :
  period_start r (bucket r t) ≤ t < period_start r (bucket r t + 1).
Proof.
  destruct r; cbn [period_start bucket].
  - apply month_period.
  - apply month_period.
  - unfold label. apply tick_period, NS_PER_DAY_pos.
  - unfold label. apply tick_period, NS_PER_HOUR_pos.
Qed.

(** The label of a bucket lies in the bucket. *)
Lemma bucket_label r k : bucket r (label r k) = k.
Proof.
  assert (Hmonth : ∀ d, 1 ≤ d ≤ days_in_month (k / 12) (k mod 12 + 1) →
            month_index (days_from_civil (k / 12) (k mod 12 + 1) d * NS_PER_DAY) = k).
  { intros d Hd. pose proof (month_of_index k) as Hm.
    assert (Hdate : ts_date (days_from_civil (k / 12) (k mod 12 + 1) d * NS_PER_DAY)
                    = (k / 12, k mod 12 + 1, d)).
    { unfold ts_date. rewrite Z.div_mul by (pose proof NS_PER_DAY_pos; lia).
      by apply civil_from_days_from_civil. }
    destruct (month_index_civil _ _ _ _ Hdate Hm) as (Hk & _ & _). rewrite Hk.
    pose proof (Z.div_mod k 12 ltac:(lia)). lia. }
  pose proof (days_in_month_pos (k / 12) (k mod 12 + 1)) as Hpos.
  destruct r; cbn [bucket label]; cbn zeta.
  - apply Hmonth. lia.
  - apply Hmonth. lia.
  - apply Z.div_mul. pose proof NS_PER_DAY_pos. lia.
  - apply Z.div_mul. pose proof NS_PER_HOUR_pos. lia.
Qed.

(** Later buckets have later labels. *)
Lemma label_lt r k k' : k < k' → label r k < label r k'.
Proof.
  intros Hlt. destruct (decide (label r k < label r k')) as [|Hge]; [done|]. exfalso.
  pose proof (bucket_mono r (label r k') (label r k) ltac:(lia)) as Hb.
  rewrite !bucket_label in Hb. lia.
Qed.

Lemma period_start_lt r k k' : k < k' → period_start r k < period_start r k'.
Proof. intros Hlt. destruct r; cbn [period_start]; by apply label_lt. Qed.

(** The buckets tile the time line. *)
Lemma bucket_iff_period r t k :
  bucket r t = k ↔ period_start r k ≤ t < period_start r (k + 1).
Proof.
  split; [intros <-; apply bucket_period|]. intros Ht.
  pose proof (bucket_period r t) as Hb.
  destruct (Z.lt_trichotomy (bucket r t) k) as [Hlt|[Heq|Hgt]]; [|exact Heq|].
  - destruct (decide (bucket r t + 1 = k)) as [Hk|Hk].
    + rewrite Hk in Hb. lia.
    + pose proof (period_start_lt r (bucket r t + 1) k ltac:(lia)). lia.
  - destruct (decide (k + 1 = bucket r t)) as [Hk|Hk].
    + rewrite Hk in Ht. lia.
    + pose proof (period_start_lt r (k + 1) (bucket r t) ltac:(lia)). lia.
Qed.

Lemma days_next_month y m :
  1 ≤ m ≤ 12 →
  let '(y2, m2) := next_month y m in
  days_from_civil y2 m2 1 = days_from_civil y m (days_in_month y m) + 1.
Proof.
  intros Hm. pose proof (label_ME_next (12 * y + (m - 1))) as Hnext.
  unfold label in Hnext. cbn zeta in Hnext.
  rewrite <- (Z.div_unique (12 * y + (m - 1)) 12 y (m - 1)) in Hnext by lia.
  rewrite <- (Z.mod_unique (12 * y + (m - 1)) 12 y (m - 1)) in Hnext by lia.
  replace (m - 1 + 1) with m in Hnext by lia.
  pose proof NS_PER_DAY_pos as Hpos. unfold next_month.
  destruct (decide (m = 12)) as [->|Hne].
  - change (12 =? 12) with true. cbn iota.
    rewrite <- (Z.div_unique (12 * y + (12 - 1) + 1) 12 (y + 1) 0) in Hnext by lia.
    rewrite <- (Z.mod_unique (12 * y + (12 - 1) + 1) 12 (y + 1) 0) in Hnext by lia.
    change (0 + 1) with 1 in Hnext. nia.
  - replace (m =? 12) with false by (symmetry; apply Z.eqb_neq; lia).
    rewrite <- (Z.div_unique (12 * y + (m - 1) + 1) 12 y m) in Hnext by lia.
    rewrite <- (Z.mod_unique (12 * y + (m - 1) + 1) 12 y m) in Hnext by lia.
    nia.
Qed.

(** The month-end offset never moves a timestamp back. *)
Lemma MonthEnd_ge t : t ≤ MonthEnd 1 t.
Proof.
  destruct (ts_date t) as [[y m] d] eqn:Hdate.
  destruct (days_from_civil_from_days _ _ _ _ Hdate) as (Hm & Hd & Hz).
  rewrite (MonthEnd_date _ _ _ _ Hdate).
  pose proof NS_PER_DAY_pos as Hpos.
  pose proof (Z.div_mod t NS_PER_DAY ltac:(lia)) as Ht.
  fold (ts_time t) in Ht.
  rewrite (days_from_civil_day y m d) in Hz.
  destruct (d <? days_in_month y m) eqn:Hlt.
  - rewrite (days_from_civil_day y m (days_in_month y m)). nia.
  - pose proof (days_next_month y m Hm) as Hnext.
    destruct (next_month y m) as [y2 m2].
    rewrite (days_from_civil_day y2 m2 (days_in_month y2 m2)), Hnext.
    rewrite (days_from_civil_day y m (days_in_month y m)).
    pose proof (days_in_month_pos y2 m2). nia.
Qed.

(** ** The result index *)

Lemma bucket_range_nonempty r (idx : list Timestamp) : idx ≠ [] → bucket_range r idx ≠ [].
Proof.
  intros Hne. destruct idx as [|a l]; [done|].
  assert (Ha : a ∈ a :: l) by left.
  pose proof (bucket_in_range r _ _ Ha) as Hin.
  intros Hnil. rewrite Hnil in Hin. by apply elem_of_nil in Hin.
Qed.

Lemma label_seqZ_sorted r a (n : nat) :
  StronglySorted Z.lt (label r <$> seqZ a (Z.of_nat n)).
Proof.
  revert a. induction n as [|n IH]; intros a; [constructor|].
  rewrite seqZ_cons by lia. rewrite fmap_cons.
  replace (Z.pred (Z.of_nat (S n))) with (Z.of_nat n) by lia.
  constructor; [apply IH|].
  apply Forall_fmap, Forall_forall. intros k Hk. apply elem_of_seqZ in Hk.
  cbn. apply label_lt. lia.
Qed.

Lemma bucket_range_labels_sorted r (idx : list Timestamp) :
  StronglySorted Z.lt (label r <$> bucket_range r idx).
Proof.
  unfold bucket_range.
  destruct (index_min idx) as [lo|]; [|constructor].
  destruct (index_max idx) as [hi|]; [|constructor].
  destruct (decide (0 ≤ last_bucket r hi - bucket r lo + 1)) as [Hn|Hn].
  - rewrite <- (Z2Nat.id _ Hn). apply label_seqZ_sorted.
  - rewrite seqZ_nil by lia. constructor.
Qed.

Section Index.
Context {num : Type} `{Number num}.

Lemma resample_index r agg n (rs : list (Timestamp * list (option num))) :
  (resample r agg n rs).*1 = label r <$> bucket_range r rs.*1.
Proof. unfold resample. rewrite <- list_fmap_compose. by apply list_fmap_ext. Qed.

Lemma scale_index sf (rs : list (Timestamp * list (option num))) : (scale sf rs).*1 = rs.*1.
Proof. unfold scale. rewrite <- list_fmap_compose. by apply list_fmap_ext. Qed.

Lemma coerce_all_index n (rs : list (Timestamp * list string)) :
  (coerce_all n rs).*1 = rs.*1.
Proof. apply fmap_fst_keep. Qed.

Lemma coerce_col_index j (rs : list (Timestamp * list string)) :
  (coerce_col j rs).*1 = rs.*1.
Proof. apply fmap_fst_keep. Qed.

Lemma load_prices_index df start end_ r res :
  load_prices df start end_ r = Ok res →
  ∃ W, loc_slice (resolve_start start (rows df).*1) (resolve_end end_ (rows df).*1) (rows df)
       = Ok W ∧ W ≠ [] ∧ (f_rows res).*1 = label r <$> bucket_range r W.*1.
Proof.
  intros Hok. destruct (load_prices_ok_inv _ _ _ _ _ Hok) as [Hreq _].
  rewrite (load_prices_valid _ _ _ _ Hreq) in Hok. cbn zeta in Hok.
  destruct (ts_gt _ _); [discriminate|].
  destruct (loc_slice _ _ (rows df)) as [[|row W]|x]; [discriminate| |discriminate].
  injection Hok as <-. exists (row :: W). split_and!; [done..|].
  cbn [f_rows]. rewrite resample_index. f_equal. f_equal.
  apply (coerce_all_index _ (row :: W)).
Qed.

Lemma load_demand_index df start end_ r zone sf res :
  load_demand df start end_ r zone sf = Ok res →
  ∃ W, loc_slice (resolve_start start (rows df).*1) (resolve_end end_ (rows df).*1) (rows df)
       = Ok W ∧ W ≠ [] ∧ (f_rows res).*1 = label r <$> bucket_range r W.*1.
Proof.
  intros Hok. destruct (load_demand_ok_inv _ _ _ _ _ _ _ Hok) as (sel & _ & _ & Hsel & _).
  rewrite (load_demand_valid _ _ _ _ _ _ _ Hsel) in Hok. cbn zeta in Hok.
  destruct (ts_gt _ _); [discriminate|].
  destruct (loc_slice _ _ (rows df)) as [[|row W]|x]; [discriminate| |discriminate].
  injection Hok as <-. exists (row :: W). split_and!; [done..|].
  cbn [f_rows]. rewrite scale_index, resample_index. f_equal. f_equal.
  apply (coerce_col_index _ (row :: W)).
Qed.

(** X1. The frame a loader returns is never empty and its timestamps are
    strictly increasing, whatever the order of the file. *)
Theorem result_index_increasing df start end_ r zone sf res :
  load_prices df start end_ r = Ok res ∨ load_demand df start end_ r zone sf = Ok res →
  f_rows res ≠ [] ∧ StronglySorted Z.lt (f_rows res).*1.
Proof.
  intros Hok.
  assert (∃ W : list (Timestamp * list string),
            W ≠ [] ∧ (f_rows res).*1 = label r <$> bucket_range r W.*1) as (W & HW & Hidx).
  { destruct Hok as [Hok|Hok].
    - destruct (load_prices_index _ _ _ _ _ Hok) as (W & _ & ? & ?). eauto.
    - destruct (load_demand_index _ _ _ _ _ _ _ Hok) as (W & _ & ? & ?). eauto. }
  split.
  - intros Hnil. rewrite Hnil in Hidx. symmetry in Hidx. apply fmap_nil_inv in Hidx.
    apply (bucket_range_nonempty r W.*1); [|exact Hidx].
    intros Hw. apply fmap_nil_inv in Hw. done.
  - rewrite Hidx. apply bucket_range_labels_sorted.
Qed.

End Index.

Lemma result_index_increasing_witness :
  let res := {| f_columns := normalize_columns (columns prices_q1);
                f_rows := spec_price_rows (num := Q) MS (length (columns prices_q1))
                            (window (mk_ts 2024 2 1 0) (mk_ts 2024 3 1 0) (rows prices_q1)) |} in
  f_rows res ≠ [] ∧ StronglySorted Z.lt (f_rows res).*1.
Proof.
  intros res.
  apply (result_index_increasing (num := Q) prices_q1 (Some (mk_ts 2024 2 1 0)) None MS "" 0%Q
           res).
  left. vm_compute. reflexivity.
Defined.

(** ** The end bound *)

(** X2. An explicit end is moved to the last day of its month when it
    lies before that day, and to the last day of the following month when
    it lies on that day; the time of day is kept and 23 hours are added.
    The bound lies at least 23 hours after the requested end, and the data
    play no role. *)
Theorem resolve_end_explicit t y m d idx :
  ts_date t = (y, m, d) →
  let '(y2, m2) := if d <? days_in_month y m then (y, m) else next_month y m in
  resolve_end (Some t) idx
  = Some (days_from_civil y2 m2 (days_in_month y2 m2) * NS_PER_DAY + ts_time t
          + 23 * NS_PER_HOUR) ∧
  t + 23 * NS_PER_HOUR
  ≤ days_from_civil y2 m2 (days_in_month y2 m2) * NS_PER_DAY + ts_time t + 23 * NS_PER_HOUR.
Proof.
  intros Hdate. pose proof (MonthEnd_ge t) as Hge.
  unfold resolve_end, Hour. rewrite (MonthEnd_date _ _ _ _ Hdate) in Hge |- *.
  destruct (if d <? days_in_month y m then (y, m) else next_month y m) as [y2 m2].
  split; [reflexivity | lia].
Qed.

Lemma resolve_end_explicit_witness :
  resolve_end (Some (mk_ts 2024 12 31 6)) [] = Some (mk_ts 2025 1 31 29).
Proof.
  destruct (resolve_end_explicit (mk_ts 2024 12 31 6) 2024 12 31 [] eq_refl) as [Hend _].
  exact Hend.
Defined.

(** ** The whole file by default *)

Lemma filter_all {A} (P : A → Prop) `{∀ x, Decision (P x)} (l : list A) :
  Forall P l → filter P l = l.
Proof.
  induction 1 as [|x l Hx _ IH]; [reflexivity|].
  rewrite filter_cons_True by exact Hx. by rewrite IH.
Qed.

Lemma window_all {A} s e (rs : list (Timestamp * A)) :
  index_min rs.*1 = Some s → index_max rs.*1 = Some e → window s e rs = rs.
Proof.
  intros Hs He. unfold window. apply filter_all, Forall_forall. intros row Hrow.
  assert (Ht : row.1 ∈ rs.*1) by (apply list_elem_of_fmap; eauto).
  split; [by eapply index_min_le | by eapply index_max_ge].
Qed.

Lemma index_min_le_max (idx : list Timestamp) s e :
  index_min idx = Some s → index_max idx = Some e → s ≤ e.
Proof.
  intros Hs He. pose proof (index_min_elem _ _ Hs) as Hin. by eapply index_max_ge.
Qed.

Section Defaults.
Context {num : Type} `{Number num}.

(** X3. Without bounds the loaders use the whole file: on a file sorted by
    time that has at least one row and acceptable columns they do not
    fail, and every row of the file is aggregated. *)
Theorem load_default_window df r zone sf :
  is_monotonic_increasing (rows df).*1 = true →
  rows df ≠ [] →
  (required ⊆ normalize_columns (columns df) →
     load_prices df None None r
     = Ok {| f_columns := normalize_columns (columns df);
             f_rows := spec_price_rows r (length (columns df)) (rows df) |}) ∧
  (∀ sel, col_map (columns df) !! strip (lower zone) = Some sel →
     load_demand df None None r zone sf
     = Ok {| f_columns := [sel];
             f_rows := spec_demand_rows r (col_pos sel (columns df)) sf (rows df) |}).
Proof.
  intros Hm Hne.
  destruct (resolve_some None None (rows df).*1) as (s & e & Hs & He).
  { intros Hnil. apply fmap_nil_inv in Hnil. done. }
  pose proof (index_min_le_max _ _ _ Hs He) as Hse.
  pose proof (window_all _ _ (rows df) Hs He) as HW.
  split.
  - intros Hreq. rewrite (load_prices_sorted _ _ _ _ _ _ Hm Hreq Hs He).
    rewrite bool_decide_eq_false_2 by lia. cbn zeta. rewrite HW.
    by destruct (rows df).
  - intros sel Hsel. rewrite (load_demand_sorted _ _ _ _ _ _ _ _ _ Hm Hsel Hs He).
    rewrite bool_decide_eq_false_2 by lia. cbn zeta. rewrite HW.
    by destruct (rows df).
Qed.

End Defaults.

Lemma load_default_window_witness :
  load_prices (num := Q) prices_q1 None None MS
  = Ok {| f_columns := normalize_columns (columns prices_q1);
          f_rows := spec_price_rows MS (length (columns prices_q1)) (rows prices_q1) |} ∧
  load_demand (num := Q) demand_hourly None None Daily "dk_2" (1 # 2)%Q
  = Ok {| f_columns := ["DK_2"];
          f_rows := spec_demand_rows Daily (col_pos "DK_2" (columns demand_hourly)) (1 # 2)%Q
                      (rows demand_hourly) |}.
Proof.
  assert (Hreq : required ⊆ normalize_columns (columns prices_q1)) by decide_by_computation.
  assert (Hsel : col_map (columns demand_hourly) !! strip (lower "dk_2") = Some "DK_2")
    by (vm_compute; reflexivity).
  split.
  - exact (proj1 (load_default_window (num := Q) prices_q1 MS "" 0%Q eq_refl
                    ltac:(discriminate)) Hreq).
  - exact (proj2 (load_default_window (num := Q) demand_hourly Daily "dk_2" (1 # 2)%Q eq_refl
                    ltac:(discriminate)) "DK_2" Hsel).
Defined.

(** ** Buckets without rows *)

Lemma bucket_range_interval r idx k1 k2 k :
  k1 ∈ bucket_range r idx → k2 ∈ bucket_range r idx → k1 ≤ k ≤ k2 →
  k ∈ bucket_range r idx.
Proof.
  unfold bucket_range.
  destruct (index_min idx) as [lo|]; [|by intros ?%elem_of_nil].
  destruct (index_max idx) as [hi|]; [|by intros ?%elem_of_nil].
  rewrite !elem_of_seqZ. lia.
Qed.

Section Gaps.
Context {num : Type} `{Number num}.

Lemma raw_values_nil j : raw_values j [] = [].
Proof. reflexivity. Qed.

(** X4. On a file sorted by time, a bucket that lies between the buckets
    of two selected rows and holds no selected row is part of the result
    all the same: with a missing value in every column for prices, with
    the value [0 * supply_factor] for demand. *)
Theorem bucket_without_rows df start end_ r zone sf s e t1 t2 k :
  is_monotonic_increasing (rows df).*1 = true →
  resolve_start start (rows df).*1 = Some s →
  resolve_end end_ (rows df).*1 = Some e →
  t1 ∈ (window s e (rows df)).*1 → t2 ∈ (window s e (rows df)).*1 →
  bucket r t1 ≤ k ≤ bucket r t2 →
  (∀ row, row ∈ window s e (rows df) → bucket r row.1 ≠ k) →
  (∀ res, load_prices df start end_ r = Ok res →
          (label r k, replicate (length (columns df)) None) ∈ f_rows res) ∧
  (∀ res, load_demand df start end_ r zone sf = Ok res →
          (label r k, [Some (nmul nzero sf)]) ∈ f_rows res).
Proof.
  intros Hm Hs He Ht1 Ht2 Hk Hnone.
  assert (Hrange : k ∈ bucket_range r (window s e (rows df)).*1).
  { apply (bucket_range_interval r _ (bucket r t1) (bucket r t2));
      [by apply bucket_in_range | by apply bucket_in_range | exact Hk]. }
  assert (Hempty : in_bucket r k (window s e (rows df)) = []).
  { apply filter_none, Forall_forall. exact Hnone. }
  split; intros res Hok.
  - destruct (load_prices_ok_inv _ _ _ _ _ Hok) as (Hreq & _).
    rewrite (load_prices_sorted _ _ _ _ _ _ Hm Hreq Hs He) in Hok.
    case_bool_decide; [discriminate|]. cbn zeta in Hok.
    destruct (window s e (rows df)) as [|row W] eqn:HW; [discriminate|].
    injection Hok as <-. cbn [f_rows]. unfold spec_price_rows.
    apply list_elem_of_fmap. exists k. split; [|exact Hrange].
    f_equal. rewrite Hempty. cbn [raw_values omap list_omap mean].
    generalize (length (columns df)). intros n. generalize 0%nat.
    induction n as [|n IH]; intros i; [reflexivity|]. cbn. f_equal. apply IH.
  - destruct (load_demand_ok_inv _ _ _ _ _ _ _ Hok) as (sel & s' & e' & Hsel & _ & _).
    rewrite (load_demand_sorted _ _ _ _ _ _ _ _ _ Hm Hsel Hs He) in Hok.
    case_bool_decide; [discriminate|]. cbn zeta in Hok.
    destruct (window s e (rows df)) as [|row W] eqn:HW; [discriminate|].
    injection Hok as <-. cbn [f_rows]. unfold spec_demand_rows.
    apply list_elem_of_fmap. exists k. split; [|exact Hrange].
    by rewrite Hempty.
Qed.

End Gaps.

Lemma bucket_without_rows_witness :
  (∀ res, load_prices (num := Q) prices_gap None None ME = Ok res →
          (mk_ts 2024 2 29 0, [None; None; None]) ∈ f_rows res) ∧
  (∀ res, load_demand (num := Q) demand_gap None None Daily "DK_2" (1 # 2)%Q = Ok res →
          (mk_ts 2024 1 2 0, [Some (nmul nzero (1 # 2)%Q)]) ∈ f_rows res).
Proof.
  split.
  - assert (Hin1 : mk_ts 2024 1 1 0
                   ∈ (window (mk_ts 2024 1 1 0) (mk_ts 2024 3 1 0) (rows prices_gap)).*1)
      by decide_by_computation.
    assert (Hin2 : mk_ts 2024 3 1 0
                   ∈ (window (mk_ts 2024 1 1 0) (mk_ts 2024 3 1 0) (rows prices_gap)).*1)
      by decide_by_computation.
    assert (Hk : bucket ME (mk_ts 2024 1 1 0) ≤ bucket ME (mk_ts 2024 2 1 0)
                 ≤ bucket ME (mk_ts 2024 3 1 0)) by (vm_compute; split; discriminate).
    assert (Hnone : ∀ row, row ∈ window (mk_ts 2024 1 1 0) (mk_ts 2024 3 1 0) (rows prices_gap) →
                           bucket ME row.1 ≠ bucket ME (mk_ts 2024 2 1 0)).
    { apply (Forall_forall (λ row : Timestamp * list string,
                              bucket ME row.1 ≠ bucket ME (mk_ts 2024 2 1 0))).
      decide_by_computation. }
    exact (proj1 (bucket_without_rows (num := Q) prices_gap None None ME "" 0%Q
                    (mk_ts 2024 1 1 0) (mk_ts 2024 3 1 0) (mk_ts 2024 1 1 0) (mk_ts 2024 3 1 0)
                    (bucket ME (mk_ts 2024 2 1 0)) eq_refl eq_refl eq_refl Hin1 Hin2 Hk Hnone)).
  - assert (Hin1 : mk_ts 2024 1 1 5
                   ∈ (window (mk_ts 2024 1 1 5) (mk_ts 2024 1 3 5) (rows demand_gap)).*1)
      by decide_by_computation.
    assert (Hin2 : mk_ts 2024 1 3 5
                   ∈ (window (mk_ts 2024 1 1 5) (mk_ts 2024 1 3 5) (rows demand_gap)).*1)
      by decide_by_computation.
    assert (Hk : bucket Daily (mk_ts 2024 1 1 5) ≤ bucket Daily (mk_ts 2024 1 2 0)
                 ≤ bucket Daily (mk_ts 2024 1 3 5)) by (vm_compute; split; discriminate).
    assert (Hnone : ∀ row, row ∈ window (mk_ts 2024 1 1 5) (mk_ts 2024 1 3 5) (rows demand_gap) →
                           bucket Daily row.1 ≠ bucket Daily (mk_ts 2024 1 2 0)).
    { apply (Forall_forall (λ row : Timestamp * list string,
                              bucket Daily row.1 ≠ bucket Daily (mk_ts 2024 1 2 0))).
      decide_by_computation. }
    exact (proj2 (bucket_without_rows (num := Q) demand_gap None None Daily "DK_2" (1 # 2)%Q
                    (mk_ts 2024 1 1 5) (mk_ts 2024 1 3 5) (mk_ts 2024 1 1 5) (mk_ts 2024 1 3 5)
                    (bucket Daily (mk_ts 2024 1 2 0)) eq_refl eq_refl eq_refl Hin1 Hin2 Hk
                    Hnone)).
Defined.

(** ** Rows outside the window *)

Lemma window_idem {A} s e (rs : list (Timestamp * A)) :
  window s e (window s e rs) = window s e rs.
Proof.
  unfold window. rewrite list_filter_filter. apply list_filter_iff. intros row. tauto.
Qed.

Section Outside.
Context {num : Type} `{Number num}.

(** X5. With both bounds given, on a file sorted by time, the rows outside
    the window have no influence: deleting them from the file changes
    neither the result nor the error of either loader. *)
Theorem rows_outside_window_ignored df s e0 r zone sf :
  is_monotonic_increasing (rows df).*1 = true →
  let kept := window s (Hour 23 (MonthEnd 1 e0)) (rows df) in
  load_prices (with_rows df kept) (Some s) (Some e0) r = load_prices df (Some s) (Some e0) r ∧
  load_demand (with_rows df kept) (Some s) (Some e0) r zone sf
  = load_demand df (Some s) (Some e0) r zone sf.
Proof.
  intros Hm kept.
  assert (Hm' : is_monotonic_increasing (rows (with_rows df kept)).*1 = true)
    by (apply monotonic_filter, Hm).
  split.
  - destruct (decide (required ⊆ normalize_columns (columns df))) as [Hreq|Hreq].
    + rewrite (load_prices_sorted df (Some s) (Some e0) r s _ Hm Hreq eq_refl eq_refl).
      rewrite (load_prices_sorted (with_rows df kept) (Some s) (Some e0) r s _ Hm' Hreq
               eq_refl eq_refl).
      cbn [rows columns with_rows]. subst kept. by rewrite window_idem.
    + unfold load_prices. cbn [columns with_rows].
      case_bool_decide; [done|]. case_bool_decide as Hmiss; [done|].
      exfalso. apply Hreq. intros c Hc.
      destruct (decide (c ∈ normalize_columns (columns df))) as [|Hn]; [done|].
      exfalso. exact (filter_nil_not_elem_of _ _ c Hmiss Hn Hc).
  - destruct (col_map (columns df) !! strip (lower zone)) as [sel|] eqn:Hsel.
    + rewrite (load_demand_sorted df (Some s) (Some e0) r zone sf sel s _ Hm Hsel
               eq_refl eq_refl).
      rewrite (load_demand_sorted (with_rows df kept) (Some s) (Some e0) r zone sf sel s _
               Hm' Hsel eq_refl eq_refl).
      cbn [rows columns with_rows]. subst kept. by rewrite window_idem.
    + unfold load_demand. cbn [columns with_rows]. by rewrite Hsel.
Qed.

End Outside.

Lemma rows_outside_window_ignored_witness :
  load_demand (num := Q)
    (with_rows demand_hourly
       (window (mk_ts 2024 2 1 0) (Hour 23 (MonthEnd 1 (mk_ts 2024 2 1 0)))
          (rows demand_hourly)))
    (Some (mk_ts 2024 2 1 0)) (Some (mk_ts 2024 2 1 0)) Hourly "DK_2" (1 # 2)%Q
  = load_demand (num := Q) demand_hourly (Some (mk_ts 2024 2 1 0)) (Some (mk_ts 2024 2 1 0))
      Hourly "DK_2" (1 # 2)%Q.
Proof.
  apply (rows_outside_window_ignored (num := Q) demand_hourly (mk_ts 2024 2 1 0)
           (mk_ts 2024 2 1 0) Hourly "DK_2" (1 # 2)%Q).
  vm_compute. reflexivity.
Defined.

(** ** Every selected row is counted once *)

Lemma monotonic_strongly_sorted {A} (rs : list (Timestamp * A)) :
  is_monotonic_increasing rs.*1 = true →
  StronglySorted (λ x y, x.1 ≤ y.1) rs.
Proof.
  induction rs as [|row rs IH]; intros Hm; [constructor|].
  rewrite fmap_cons in Hm. destruct (monotonic_cons _ _ Hm) as [Hall Hm'].
  constructor; [by apply IH|]. revert Hall. by rewrite Forall_fmap.
Qed.

Lemma strongly_sorted_impl {A} (R R' : A → A → Prop) (l : list A) :
  (∀ x y, R x y → R' x y) → StronglySorted R l → StronglySorted R' l.
Proof.
  intros HR. induction 1 as [|x l Hs IH Hx]; constructor; [exact IH|].
  eapply Forall_impl; [exact Hx|]. intros y. apply HR.
Qed.

Lemma key_split {A} (f : A → Z) a (l : list A) :
  StronglySorted (λ x y, f x ≤ f y) l → Forall (λ x, a ≤ f x) l →
  filter (λ x, f x = a) l ++ filter (λ x, a < f x) l = l.
Proof.
  induction 1 as [|x l Hs IH Hx]; intros Hall; [reflexivity|].
  apply Forall_cons in Hall as [Hax Hall].
  destruct (decide (f x = a)) as [Heq|Hne].
  - rewrite (filter_cons_True (λ x, f x = a)) by exact Heq.
    rewrite (filter_cons_False (λ x, a < f x)) by (cbn; lia).
    cbn [app]. f_equal. by apply IH.
  - rewrite (filter_cons_False (λ x, f x = a)) by exact Hne.
    rewrite (filter_cons_True (λ x, a < f x)) by (cbn; lia).
    rewrite (filter_none (λ x, f x = a)), (filter_all (λ x, a < f x)); [reflexivity | |].
    + eapply Forall_impl; [exact Hx|]. cbn. lia.
    + eapply Forall_impl; [exact Hx|]. cbn. lia.
Qed.

Lemma strongly_sorted_filter {A} (R : A → A → Prop) (P : A → Prop) `{∀ x, Decision (P x)}
    (l : list A) :
  StronglySorted R l → StronglySorted R (filter P l).
Proof.
  induction 1 as [|x l Hs IH Hx]; [constructor|].
  rewrite filter_cons. case_decide; [|exact IH].
  constructor; [exact IH|]. apply Forall_forall. intros y Hy.
  apply list_elem_of_filter in Hy as [_ Hy]. rewrite Forall_forall in Hx. by apply Hx.
Qed.

Lemma key_concat {A} (f : A → Z) (n : nat) a (l : list A) :
  StronglySorted (λ x y, f x ≤ f y) l → Forall (λ x, a ≤ f x < a + Z.of_nat n) l →
  concat ((λ k, filter (λ x, f x = k) l) <$> seqZ a (Z.of_nat n)) = l.
Proof.
  revert a l. induction n as [|n IH]; intros a l Hs Hall.
  - destruct l as [|x l]; [reflexivity|]. apply Forall_cons in Hall as [Hx _]. lia.
  - rewrite seqZ_cons by lia. replace (Z.pred (Z.of_nat (S n))) with (Z.of_nat n) by lia.
    rewrite fmap_cons. cbn [concat].
    transitivity (filter (λ x, f x = a) l ++ filter (λ x, a < f x) l);
      [|apply (key_split f a l Hs); eapply Forall_impl; [exact Hall|]; cbn; lia].
    f_equal.
    rewrite <- (IH (Z.succ a) (filter (λ x, a < f x) l)).
    + f_equal. apply list_fmap_ext. intros _ k Hk%list_elem_of_lookup_2.
      apply elem_of_seqZ in Hk. rewrite list_filter_filter.
      apply list_filter_iff. intros x. lia.
    + by apply strongly_sorted_filter.
    + apply Forall_forall. intros x Hx. apply list_elem_of_filter in Hx as [Hax Hx].
      rewrite Forall_forall in Hall. specialize (Hall x Hx). cbn in *. lia.
Qed.

Lemma in_bucket_concat {A} r (W : list (Timestamp * A)) :
  is_monotonic_increasing W.*1 = true →
  concat ((λ k, in_bucket r k W) <$> bucket_range r W.*1) = W.
Proof.
  intros Hm. destruct W as [|row W]; [reflexivity|].
  set (rs := row :: W) in *.
  assert (Hall : ∀ x, x ∈ rs → bucket r x.1 ∈ bucket_range r rs.*1).
  { intros x Hx. apply bucket_in_range, list_elem_of_fmap. eauto. }
  unfold bucket_range in *.
  assert (Hlo : index_min rs.*1 = Some (foldl Z.min row.1 W.*1)) by reflexivity.
  assert (Hhi : index_max rs.*1 = Some (foldl Z.max row.1 W.*1)) by reflexivity.
  rewrite Hlo, Hhi in Hall |- *.
  set (lo := foldl Z.min row.1 W.*1) in *. set (hi := foldl Z.max row.1 W.*1) in *.
  assert (Hn : 0 ≤ last_bucket r hi - bucket r lo + 1).
  { specialize (Hall row ltac:(left)). apply elem_of_seqZ in Hall. lia. }
  rewrite <- (Z2Nat.id _ Hn) in Hall |- *.
  unfold in_bucket. apply (key_concat (λ x : Timestamp * A, bucket r x.1)).
  - eapply strongly_sorted_impl; [|by apply monotonic_strongly_sorted].
    intros x y Hxy. by apply bucket_mono.
  - apply Forall_forall. intros x Hx. specialize (Hall x Hx).
    apply elem_of_seqZ in Hall. cbn. lia.
Qed.

Lemma in_bucket_period {A} r k (W : list (Timestamp * A)) : in_bucket r k W = in_period r k W.
Proof. apply list_filter_iff. intros row. apply bucket_iff_period. Qed.

Lemma label_period r k :
  label r k = match r with
              | ME => period_start ME (k + 1) - NS_PER_DAY
              | _ => period_start r k
              end.
Proof. destruct r; try reflexivity. cbn [period_start]. rewrite <- label_ME_next. lia. Qed.

Section Periods.
Context {num : Type} `{Number num}.

Lemma load_sorted_index df start end_ r zone sf res :
  is_monotonic_increasing (rows df).*1 = true →
  load_prices df start end_ r = Ok res ∨ load_demand df start end_ r zone sf = Ok res →
  ∃ s e, resolve_start start (rows df).*1 = Some s ∧
         resolve_end end_ (rows df).*1 = Some e ∧
         (f_rows res).*1 = label r <$> bucket_range r (window s e (rows df)).*1.
Proof.
  intros Hm [Hok|Hok].
  - destruct (load_prices_ok_inv _ _ _ _ _ Hok) as (_ & s & e & Hs & He).
    destruct (load_prices_index _ _ _ _ _ Hok) as (W & HW & _ & Hidx).
    rewrite Hs, He, loc_slice_sorted in HW by exact Hm. injection HW as <-. eauto.
  - destruct (load_demand_ok_inv _ _ _ _ _ _ _ Hok) as (_ & s & e & _ & Hs & He).
    destruct (load_demand_index _ _ _ _ _ _ _ Hok) as (W & HW & _ & Hidx).
    rewrite Hs, He, loc_slice_sorted in HW by exact Hm. injection HW as <-. eauto.
Qed.

Lemma load_prices_sorted_rows df start end_ r res :
  is_monotonic_increasing (rows df).*1 = true →
  load_prices df start end_ r = Ok res →
  ∃ s e, resolve_start start (rows df).*1 = Some s ∧
         resolve_end end_ (rows df).*1 = Some e ∧
         f_rows res = spec_price_rows r (length (columns df)) (window s e (rows df)).
Proof.
  intros Hm Hok. destruct (load_prices_ok_inv _ _ _ _ _ Hok) as (Hreq & s & e & Hs & He).
  rewrite (load_prices_sorted _ _ _ _ _ _ Hm Hreq Hs He) in Hok.
  case_bool_decide; [discriminate|]. cbn zeta in Hok.
  destruct (window s e (rows df)) as [|row W] eqn:HW; [discriminate|].
  injection Hok as <-. exists s, e. by rewrite HW.
Qed.

Lemma load_demand_sorted_rows df start end_ r zone sf res :
  is_monotonic_increasing (rows df).*1 = true →
  load_demand df start end_ r zone sf = Ok res →
  ∃ sel s e, col_map (columns df) !! strip (lower zone) = Some sel ∧
             resolve_start start (rows df).*1 = Some s ∧
             resolve_end end_ (rows df).*1 = Some e ∧
             f_rows res
             = spec_demand_rows r (col_pos sel (columns df)) sf (window s e (rows df)).
Proof.
  intros Hm Hok.
  destruct (load_demand_ok_inv _ _ _ _ _ _ _ Hok) as (sel & s & e & Hsel & Hs & He).
  rewrite (load_demand_sorted _ _ _ _ _ _ _ _ _ Hm Hsel Hs He) in Hok.
  case_bool_decide; [discriminate|]. cbn zeta in Hok.
  destruct (window s e (rows df)) as [|row W] eqn:HW; [discriminate|].
  injection Hok as <-. exists sel, s, e. by rewrite HW.
Qed.

(** X6. On a file sorted by time the aggregation neither loses nor
    repeats a row: the rows of the returned buckets, taken bucket after
    bucket, are the rows of the window in file order. *)
Theorem buckets_partition_window df start end_ r zone sf res :
  is_monotonic_increasing (rows df).*1 = true →
  load_prices df start end_ r = Ok res ∨ load_demand df start end_ r zone sf = Ok res →
  ∃ s e, resolve_start start (rows df).*1 = Some s ∧
         resolve_end end_ (rows df).*1 = Some e ∧
         let W := window s e (rows df) in
         (f_rows res).*1 = label r <$> bucket_range r W.*1 ∧
         concat ((λ k, in_bucket r k W) <$> bucket_range r W.*1) = W.
Proof.
  intros Hm Hok. destruct (load_sorted_index _ _ _ _ _ _ _ Hm Hok) as (s & e & Hs & He & Hidx).
  exists s, e. split_and!; [done..|]. cbn zeta. split; [exact Hidx|].
  apply in_bucket_concat. by apply monotonic_filter.
Qed.

(** X7. Each bucket is a period of time.  On a file sorted by time, the
    value of a returned row is computed from the rows of the window whose
    timestamps lie from the first instant of a period up to, but not
    including, the first instant of the next; the row is stamped with the
    first instant of the period, or for month-end resampling with the
    midnight of its last day. *)
Theorem buckets_are_periods df start end_ r zone sf res lbl cells :
  is_monotonic_increasing (rows df).*1 = true →
  (lbl, cells) ∈ f_rows res →
  (load_prices df start end_ r = Ok res →
     ∃ s e k, resolve_start start (rows df).*1 = Some s ∧
              resolve_end end_ (rows df).*1 = Some e ∧
              lbl = match r with
                    | ME => period_start ME (k + 1) - NS_PER_DAY
                    | _ => period_start r k
                    end ∧
              cells = (λ j, mean (raw_values j (in_period r k (window s e (rows df)))))
                        <$> seq 0 (length (columns df))) ∧
  (load_demand df start end_ r zone sf = Ok res →
     ∃ sel s e k, col_map (columns df) !! strip (lower zone) = Some sel ∧
                  resolve_start start (rows df).*1 = Some s ∧
                  resolve_end end_ (rows df).*1 = Some e ∧
                  lbl = match r with
                        | ME => period_start ME (k + 1) - NS_PER_DAY
                        | _ => period_start r k
                        end ∧
                  cells = [Some (nmul (nsum (raw_values (col_pos sel (columns df))
                                               (in_period r k (window s e (rows df)))))
                                      sf)]).
Proof.
  intros Hm Hin. split; intros Hok.
  - destruct (load_prices_sorted_rows _ _ _ _ _ Hm Hok) as (s & e & Hs & He & Hrows).
    rewrite Hrows in Hin. unfold spec_price_rows in Hin.
    apply list_elem_of_fmap in Hin as (k & [= -> ->] & _).
    exists s, e, k. rewrite in_bucket_period. split_and!; [done | done | | done].
    apply label_period.
  - destruct (load_demand_sorted_rows _ _ _ _ _ _ _ Hm Hok) as (sel & s & e & Hsel & Hs & He & Hrows).
    rewrite Hrows in Hin. unfold spec_demand_rows in Hin.
    apply list_elem_of_fmap in Hin as (k & [= -> ->] & _).
    exists sel, s, e, k. rewrite in_bucket_period. split_and!; [done | done | done | | done].
    apply label_period.
Qed.

(** X8. A row between the start and the requested end is enough for the
    loaders to succeed on a file sorted by time with acceptable columns,
    and the bucket of that row is part of the result. *)
Theorem load_succeeds_on_requested_row df s e0 r zone sf row :
  is_monotonic_increasing (rows df).*1 = true →
  row ∈ rows df → s ≤ row.1 ≤ e0 →
  (required ⊆ normalize_columns (columns df) →
     ∃ res, load_prices df (Some s) (Some e0) r = Ok res ∧
            label r (bucket r row.1) ∈ (f_rows res).*1) ∧
  (is_Some (col_map (columns df) !! strip (lower zone)) →
     ∃ res, load_demand df (Some s) (Some e0) r zone sf = Ok res ∧
            label r (bucket r row.1) ∈ (f_rows res).*1).
Proof.
  intros Hm Hrow Ht. pose proof (MonthEnd_ge e0) as Hge.
  pose proof NS_PER_HOUR_pos as Hpos.
  set (e := Hour 23 (MonthEnd 1 e0)).
  assert (He : e0 ≤ e) by (subst e; unfold Hour; lia).
  assert (HW : row ∈ window s e (rows df)).
  { apply list_elem_of_filter. split; [lia | exact Hrow]. }
  assert (Hlbl : label r (bucket r row.1)
                 ∈ label r <$> bucket_range r (window s e (rows df)).*1).
  { apply list_elem_of_fmap. exists (bucket r row.1). split; [reflexivity|].
    apply bucket_in_range, list_elem_of_fmap. eauto. }
  split.
  - intros Hreq.
    destruct (load_prices df (Some s) (Some e0) r) as [res|err] eqn:Hok.
    + exists res. split; [reflexivity|].
      destruct (load_sorted_index df (Some s) (Some e0) r zone sf res Hm (or_introl Hok))
        as (s' & e' & [= <-] & [= <-] & ->). exact Hlbl.
    + exfalso. rewrite (load_prices_sorted df (Some s) (Some e0) r s e Hm Hreq eq_refl eq_refl)
        in Hok.
      rewrite bool_decide_eq_false_2 in Hok by lia. cbn zeta in Hok.
      destruct (window s e (rows df)); [by apply elem_of_nil in HW | discriminate].
  - intros [sel Hsel].
    destruct (load_demand df (Some s) (Some e0) r zone sf) as [res|err] eqn:Hok.
    + exists res. split; [reflexivity|].
      destruct (load_sorted_index df (Some s) (Some e0) r zone sf res Hm (or_intror Hok))
        as (s' & e' & [= <-] & [= <-] & ->). exact Hlbl.
    + exfalso.
      rewrite (load_demand_sorted df (Some s) (Some e0) r zone sf sel s e Hm Hsel eq_refl eq_refl)
        in Hok.
      rewrite bool_decide_eq_false_2 in Hok by lia. cbn zeta in Hok.
      destruct (window s e (rows df)); [by apply elem_of_nil in HW | discriminate].
Qed.

End Periods.

Lemma buckets_partition_window_witness :
  ∃ s e, resolve_start None (rows demand_hourly).*1 = Some s ∧
         resolve_end None (rows demand_hourly).*1 = Some e ∧
         concat ((λ k, in_bucket Daily k (window s e (rows demand_hourly)))
                   <$> bucket_range Daily (window s e (rows demand_hourly)).*1)
         = window s e (rows demand_hourly).
Proof.
  pose (res := {| f_columns := ["DK_2"];
                  f_rows := spec_demand_rows (num := Q) Daily 1 (1 # 2)%Q
                              (rows demand_hourly) |}).
  assert (Hok : load_demand (num := Q) demand_hourly None None Daily "DK_2" (1 # 2)%Q = Ok res)
    by (vm_compute; reflexivity).
  destruct (buckets_partition_window (num := Q) demand_hourly None None Daily "DK_2" (1 # 2)%Q
              res eq_refl (or_intror Hok)) as (s & e & Hs & He & _ & Hcat).
  exists s, e. split_and!; [exact Hs | exact He | exact Hcat].
Defined.

Lemma buckets_are_periods_witness :
  ∃ sel s e k,
    col_map (columns demand_gap) !! strip (lower "DK_2") = Some sel ∧
    resolve_start None (rows demand_gap).*1 = Some s ∧
    resolve_end None (rows demand_gap).*1 = Some e ∧
    mk_ts 2024 1 2 0 = period_start Daily k ∧
    [Some (nmul nzero (1 # 2)%Q)]
    = [Some (nmul (nsum (raw_values (col_pos sel (columns demand_gap))
                           (in_period Daily k (window s e (rows demand_gap)))))
                  (1 # 2)%Q)].
Proof.
  pose (res := {| f_columns := ["DK_2"];
                  f_rows := spec_demand_rows (num := Q) Daily 0 (1 # 2)%Q (rows demand_gap) |}).
  assert (Hok : load_demand (num := Q) demand_gap None None Daily "DK_2" (1 # 2)%Q = Ok res)
    by (vm_compute; reflexivity).
  assert (Hin : (mk_ts 2024 1 2 0, [Some (nmul nzero (1 # 2)%Q)]) ∈ f_rows res)
    by decide_by_computation.
  exact (proj2 (buckets_are_periods (num := Q) demand_gap None None Daily "DK_2" (1 # 2)%Q res
                  (mk_ts 2024 1 2 0) [Some (nmul nzero (1 # 2)%Q)] eq_refl Hin) Hok).
Defined.

Lemma load_succeeds_on_requested_row_witness :
  ∃ res, load_prices (num := Q) prices_q1 (Some (mk_ts 2024 1 15 0)) (Some (mk_ts 2024 2 1 0)) ME
         = Ok res ∧
         label ME (bucket ME (mk_ts 2024 2 1 0)) ∈ (f_rows res).*1.
Proof.
  assert (Hm : is_monotonic_increasing (rows prices_q1).*1 = true) by (vm_compute; reflexivity).
  assert (Hrow : (mk_ts 2024 2 1 0, ["12"; "n/a"; "52"; "8"]) ∈ rows prices_q1)
    by decide_by_computation.
  assert (Ht : mk_ts 2024 1 15 0 ≤ mk_ts 2024 2 1 0 ≤ mk_ts 2024 2 1 0)
    by (vm_compute; split; discriminate).
  assert (Hreq : required ⊆ normalize_columns (columns prices_q1)) by decide_by_computation.
  exact (proj1 (load_succeeds_on_requested_row (num := Q) prices_q1 (mk_ts 2024 1 15 0)
                  (mk_ts 2024 2 1 0) ME "" 0%Q _ Hm Hrow Ht) Hreq).
Defined.

(** ** Zones of one file *)

Section Zones.
Context {num : Type} `{Number num}.

(** X9. Whether [load_demand] succeeds on a file and which timestamps it
    returns depend on the bounds and the rule, not on the zone or the
    supply factor: if it succeeds for one zone it succeeds for every other
    zone of the file, with the same timestamps in the same order. *)
Theorem load_demand_zones_align df start end_ r zone1 sf1 zone2 sf2 res1 :
  load_demand df start end_ r zone1 sf1 = Ok res1 →
  is_Some (col_map (columns df) !! strip (lower zone2)) →
  ∃ res2, load_demand df start end_ r zone2 sf2 = Ok res2 ∧
          (f_rows res2).*1 = (f_rows res1).*1.
Proof.
  intros Hok [sel2 Hsel2].
  destruct (load_demand_index _ _ _ _ _ _ _ Hok) as (W & HW & Hne & Hidx).
  rewrite (load_demand_valid _ _ _ _ _ _ _ Hsel2). cbn zeta.
  destruct (load_demand_ok_inv _ _ _ _ _ _ _ Hok) as (sel1 & _ & _ & Hsel1 & _).
  rewrite (load_demand_valid _ _ _ _ _ _ _ Hsel1) in Hok. cbn zeta in Hok.
  destruct (ts_gt _ _); [discriminate|]. rewrite HW.
  destruct W as [|row W]; [done|]. eexists. split; [reflexivity|].
  cbn [f_rows]. rewrite Hidx, scale_index, resample_index. f_equal. f_equal.
  apply (coerce_col_index _ (row :: W)).
Qed.

End Zones.

Lemma load_demand_zones_align_witness :
  ∃ res1 res2,
    load_demand (num := Q) demand_hourly None None Daily "dk_2" (1 # 2)%Q = Ok res1 ∧
    load_demand (num := Q) demand_hourly None None Daily "DK_1" (1 # 1)%Q = Ok res2 ∧
    (f_rows res2).*1 = (f_rows res1).*1.
Proof.
  pose (res1 := {| f_columns := ["DK_2"];
                   f_rows := spec_demand_rows (num := Q) Daily 1 (1 # 2)%Q
                               (rows demand_hourly) |}).
  assert (Hok : load_demand (num := Q) demand_hourly None None Daily "dk_2" (1 # 2)%Q = Ok res1)
    by (vm_compute; reflexivity).
  assert (Hzone : is_Some (col_map (columns demand_hourly) !! strip (lower "DK_1")))
    by (vm_compute; eauto).
  destruct (load_demand_zones_align (num := Q) demand_hourly None None Daily
              "dk_2" (1 # 2)%Q "DK_1" (1 # 1)%Q res1 Hok Hzone) as (res2 & Hok2 & Hidx).
  exists res1, res2. split_and!; [exact Hok | exact Hok2 | exact Hidx].
Defined.

(** ** Column names *)

Lemma is_space_lower c : is_space (lower_ascii c) = is_space c.
Proof. destruct c as [[] [] [] [] [] [] [] []]; reflexivity. Qed.

Lemma lower_ascii_idem c : lower_ascii (lower_ascii c) = lower_ascii c.
Proof. destruct c as [[] [] [] [] [] [] [] []]; reflexivity. Qed.

Lemma lower_idem s : lower (lower s) = lower s.
Proof. induction s as [|c s IH]; [reflexivity|]. cbn. by rewrite lower_ascii_idem, IH. Qed.

Lemma lower_lstrip s : lower (lstrip s) = lstrip (lower s).
Proof.
  induction s as [|c s IH]; [reflexivity|]. cbn [lstrip lower].
  rewrite is_space_lower. by destruct (is_space c).
Qed.

Lemma lower_rstrip s : lower (rstrip s) = rstrip (lower s).
Proof.
  induction s as [|c s IH]; [reflexivity|]. cbn [rstrip lower].
  rewrite <- IH, is_space_lower.
  destruct (rstrip s) as [|a r]; [destruct (is_space c); reflexivity | reflexivity].
Qed.

Lemma lower_strip s : lower (strip s) = strip (lower s).
Proof. unfold strip. by rewrite lower_rstrip, lower_lstrip. Qed.

Lemma rstrip_idem s : rstrip (rstrip s) = rstrip s.
Proof.
  induction s as [|c s IH]; [reflexivity|]. cbn [rstrip].
  destruct (rstrip s) as [|a r] eqn:Hr.
  - destruct (is_space c) eqn:Hc; [reflexivity|]. cbn [rstrip]. by rewrite Hc.
  - cbn [rstrip] in IH |- *. by rewrite IH.
Qed.

Lemma lstrip_head s : match lstrip s with
                      | EmptyString => True
                      | String c _ => is_space c = false
                      end.
Proof.
  induction s as [|c s IH]; [done|]. cbn [lstrip].
  by destruct (is_space c) eqn:Hc.
Qed.

Lemma lstrip_rstrip_lstrip s : lstrip (rstrip (lstrip s)) = rstrip (lstrip s).
Proof.
  pose proof (lstrip_head s) as Hhead. destruct (lstrip s) as [|c u]; [reflexivity|].
  cbn [rstrip]. destruct (rstrip u) as [|a r]; rewrite ?Hhead; cbn [lstrip]; by rewrite Hhead.
Qed.

Lemma strip_idem s : strip (strip s) = strip s.
Proof. unfold strip. by rewrite lstrip_rstrip_lstrip, rstrip_idem. Qed.

Lemma normalize_idem c : lower (strip (lower (strip c))) = lower (strip c).
Proof. by rewrite (lower_strip (lower (strip c))), lower_idem, <- lower_strip, strip_idem. Qed.

(** X10. The two loaders normalize a column name to the same text, though
    [load_prices] trims before it lower-cases and [load_demand] lower-cases
    before it trims; and a normalized header is left as it is by a second
    normalization. *)
Theorem normalization_agrees cols :
  normalize_columns cols = (λ c, strip (lower c)) <$> cols ∧
  normalize_columns (normalize_columns cols) = normalize_columns cols.
Proof.
  unfold normalize_columns. split.
  - apply list_fmap_ext. intros _ c _. apply lower_strip.
  - rewrite <- list_fmap_compose. apply list_fmap_ext. intros _ c _.
    apply normalize_idem.
Qed.

(** ** Attribute maps: keys, size, failures *)

Lemma attr_loaders_load_attr loader key value :
  (loader, key, value) ∈ attr_loaders → ∃ file, loader = load_attr file key value.
Proof.
  unfold attr_loaders. rewrite !elem_of_cons, elem_of_nil.
  intros [[= -> -> ->]|[[= -> -> ->]|[[= -> -> ->]|[]]]]; eexists; reflexivity.
Qed.

Lemma nodup_keys_value {A B} (l : list (A * B)) k v1 v2 :
  NoDup l.*1 → (k, v1) ∈ l → (k, v2) ∈ l → v1 = v2.
Proof.
  induction l as [|[k' v'] l IH]; intros Hnd H1 H2; [by apply elem_of_nil in H1|].
  rewrite fmap_cons in Hnd. apply NoDup_cons in Hnd as [Hk Hnd].
  assert (Hin : ∀ v, (k', v) ∈ l → False).
  { intros v Hv. apply Hk. apply list_elem_of_fmap. by exists (k', v). }
  apply elem_of_cons in H1. apply elem_of_cons in H2.
  destruct H1 as [E1|H1], H2 as [E2|H2].
  - congruence.
  - injection E1 as -> ->. by destruct (Hin v2).
  - injection E2 as -> ->. by destruct (Hin v1).
  - by apply IH.
Qed.

Lemma dict_dom (pairs : list (string * string)) k :
  is_Some (dict pairs !! k) ↔ k ∈ pairs.*1.
Proof.
  unfold dict. rewrite (foldl_insert_lookup fst snd), lookup_empty.
  destruct (last (filter (λ p : string * string, p.1 = k) pairs)) as [p|] eqn:Hlast.
  - split; [intros _|by eauto].
    apply last_elem_of, list_elem_of_filter in Hlast as [<- Hp].
    apply list_elem_of_fmap. eauto.
  - split; [by intros []|]. intros (p & -> & Hp)%list_elem_of_fmap.
    apply last_None in Hlast. exfalso.
    by eapply (filter_nil_not_elem_of _ _ p Hlast).
Qed.

Lemma dict_size (pairs : list (string * string)) :
  (size (dict pairs) ≤ length pairs)%nat ∧
  (NoDup pairs.*1 → size (dict pairs) = length pairs).
Proof.
  assert (Hdom : dom (dict pairs) = list_to_set pairs.*1).
  { apply set_eq. intros k. rewrite elem_of_dom, dict_dom, elem_of_list_to_set. done. }
  rewrite <- size_dom, Hdom. split.
  - rewrite <- (length_fmap fst pairs). generalize (pairs.*1). intros l.
    induction l as [|x l IH]; [by rewrite list_to_set_nil, size_empty|].
    rewrite list_to_set_cons, size_union_alt, size_singleton. cbn [length].
    assert (Hsub : list_to_set l ∖ {[x]} ⊆ list_to_set (C := gset string) l)
      by (intros y Hy; by apply elem_of_difference in Hy as [? _]).
    apply subseteq_size in Hsub. lia.
  - intros Hnd. rewrite size_list_to_set by exact Hnd. apply length_fmap.
Qed.

(** X11. An attribute loader succeeds exactly when the header holds its two
    columns, spelled as the loader spells them (the names are not trimmed
    or lower-cased here); otherwise it fails with a [FormatError],
    whatever the rows hold. *)
Theorem attribute_loader_columns loader key value df :
  (loader, key, value) ∈ attr_loaders →
  ((∃ m, loader df = Ok m) ↔ key ∈ a_columns df ∧ value ∈ a_columns df) ∧
  (∀ err, loader df = Err err →
          kind_of err = FormatError ∧
          ∀ rs, loader {| a_columns := a_columns df; a_rows := rs |} = Err err).
Proof.
  intros (file & ->)%attr_loaders_load_attr. unfold load_attr. cbn [a_columns].
  assert (Hsub : [key; value] ⊆ a_columns df ↔ key ∈ a_columns df ∧ value ∈ a_columns df).
  { split.
    - intros Hs. split; apply Hs; [left | right; left].
    - intros [Hk Hv] x Hx. apply elem_of_cons in Hx as [->|Hx]; [done|].
      apply elem_of_cons in Hx as [->|Hx]; [done|]. by apply elem_of_nil in Hx. }
  case_bool_decide as Hcols.
  - split; [split; [by intros _; apply Hsub | eauto]|]. by intros err [=].
  - split.
    + split; [by intros [m [=]]|]. intros Hboth. by destruct Hcols; apply Hsub.
    + intros err [= <-]. done.
Qed.

(** X12. The keys of a returned mapping are the fuel names of the file, no
    more and no fewer; the mapping has at most one entry per row, and
    exactly one per row when no fuel name occurs twice, each row then
    being found under its own fuel name. *)
Theorem attribute_map_keys loader key value df m :
  (loader, key, value) ∈ attr_loaders →
  loader df = Ok m →
  (∀ k, is_Some (m !! k) ↔ k ∈ column key df) ∧
  (size m ≤ length (a_rows df))%nat ∧
  (NoDup (column key df) →
     size m = length (a_rows df) ∧
     ∀ row, row ∈ a_rows df → m !! attr_cell key df row = Some (attr_cell value df row)).
Proof.
  intros (file & ->)%attr_loaders_load_attr. unfold load_attr.
  case_bool_decide; [|discriminate]. intros [= <-].
  set (pairs := zip (column key df) (column value df)).
  assert (Hpairs : pairs = (λ row, (attr_cell key df row, attr_cell value df row)) <$> a_rows df)
    by apply zip_columns.
  assert (Hkeys : pairs.*1 = column key df).
  { rewrite Hpairs. unfold column. rewrite <- list_fmap_compose. by apply list_fmap_ext. }
  assert (Hlen : length pairs = length (a_rows df)) by (by rewrite Hpairs, length_fmap).
  destruct (dict_size pairs) as [Hle Heq]. split_and!.
  - intros k. by rewrite dict_dom, Hkeys.
  - lia.
  - intros Hnd. rewrite <- Hkeys in Hnd. split; [rewrite Heq by exact Hnd; lia|].
    intros row Hrow. unfold dict.
    rewrite (foldl_insert_lookup fst snd), lookup_empty.
    set (k := attr_cell key df row).
    assert (Hp : (k, attr_cell value df row) ∈ pairs)
      by (rewrite Hpairs; apply list_elem_of_fmap; eauto).
    destruct (last (filter (λ p : string * string, p.1 = k) pairs)) as [p|] eqn:Hlast.
    + apply last_elem_of, list_elem_of_filter in Hlast as [Hk Hin].
      f_equal. destruct p as [k' v']. cbn in Hk. subst k'. cbn [snd].
      by apply (nodup_keys_value pairs k).
    + apply last_None in Hlast. exfalso.
      by eapply (filter_nil_not_elem_of _ _ _ Hlast); [|exact Hp].
Qed.

Lemma attribute_loader_columns_witness :
  (∃ m, load_efficiency storage_csv = Ok m) ↔
  "fuel" ∈ a_columns storage_csv ∧ "efficiency" ∈ a_columns storage_csv.
Proof.
  apply (attribute_loader_columns load_efficiency "fuel" "efficiency" storage_csv).
  unfold attr_loaders. right. left.
Defined.

Lemma attribute_map_keys_witness :
  ∃ m, load_storage storage_csv = Ok m ∧
       (∀ k, is_Some (m !! k) ↔ k ∈ column "fuel" storage_csv) ∧
       (size m ≤ length (a_rows storage_csv))%nat.
Proof.
  eexists. split; [reflexivity|].
  destruct (attribute_map_keys load_storage "fuel" "capacity" storage_csv _
              ltac:(unfold attr_loaders; left) eq_refl) as (Hkeys & Hsize & _).
  split; [exact Hkeys | exact Hsize].
Defined.

(** ** Files that are not in time order, files without rows *)

Lemma positions_from_absent i x idx : x ∉ idx → positions_from i x idx = [].
Proof.
  revert i. induction idx as [|y ys IH]; intros i Hx; [reflexivity|].
  cbn [positions_from]. apply not_elem_of_cons in Hx as [Hne Hx].
  destruct (decide (y = x)); [congruence | by apply IH].
Qed.

Lemma positions_from_present i x idx :
  NoDup idx → x ∈ idx → ∃ p, positions_from i x idx = [p] ∧ (i ≤ p)%nat ∧
                             (i < p ∨ head idx = Some x)%nat.
Proof.
  revert i. induction idx as [|y ys IH]; intros i Hnd Hx; [by apply elem_of_nil in Hx|].
  apply NoDup_cons in Hnd as [Hy Hnd]. cbn [positions_from].
  destruct (decide (y = x)) as [->|Hne].
  - exists i. rewrite positions_from_absent by exact Hy. split_and!; [done | lia | by right].
  - apply elem_of_cons in Hx as [->|Hx]; [done|].
    destruct (IH (S i) Hnd Hx) as (p & Hp & Hle & _). exists p. split_and!; [done | lia | left; lia].
Qed.

Lemma strictly_decreasing_facts (idx : list Timestamp) :
  StronglySorted (λ a b, b < a) idx → (2 ≤ length idx)%nat →
  NoDup idx ∧ ∃ hd lst, head idx = Some hd ∧ index_max idx = Some hd ∧
                        index_min idx = Some lst ∧ lst < hd.
Proof.
  intros Hs Hlen. split.
  - clear Hlen. induction Hs as [|x l Hs IH Hx]; constructor.
    + intros Hin. rewrite Forall_forall in Hx. specialize (Hx x Hin). lia.
    + exact IH.
  - destruct idx as [|hd tl]; [cbn in Hlen; lia|].
    apply StronglySorted_inv in Hs as [_ Hall]. rewrite Forall_forall in Hall.
    destruct (index_max (hd :: tl)) as [mx|] eqn:Hmx; [|discriminate].
    destruct (index_min (hd :: tl)) as [mn|] eqn:Hmn; [|discriminate].
    assert (mx = hd) as ->.
    { pose proof (index_max_elem _ _ Hmx) as Hin.
      pose proof (index_max_ge _ _ hd Hmx ltac:(left)) as Hge.
      apply elem_of_cons in Hin as [->|Hin]; [done|]. specialize (Hall mx Hin). cbn in *. lia. }
    exists hd, mn. split_and!; [done..|].
    destruct tl as [|y tl]; [cbn in Hlen; lia|].
    pose proof (index_min_le _ _ y Hmn ltac:(right; left)) as Hle.
    specialize (Hall y ltac:(left)). cbn in *. lia.
Qed.

Lemma loc_slice_newest_first {A} (rs : list (Timestamp * A)) s e :
  StronglySorted (λ a b, b < a) rs.*1 → (2 ≤ length rs)%nat →
  index_min rs.*1 = Some s → index_max rs.*1 = Some e →
  loc_slice (Some s) (Some e) rs = Ok [].
Proof.
  intros Hs Hlen Hmin Hmax.
  destruct (strictly_decreasing_facts rs.*1 Hs) as (Hnd & hd & lst & Hhd & Hmx & Hmn & Hlt);
    [by rewrite length_fmap|].
  rewrite Hmin in Hmn. rewrite Hmax in Hmx. injection Hmn as <-. injection Hmx as <-.
  unfold loc_slice, get_slice_bound.
  destruct (positions_from_present 0 s rs.*1 Hnd (index_min_elem _ _ Hmin))
    as (p & -> & _ & [Hp|Hp]); [|rewrite Hhd in Hp; injection Hp as ->; lia].
  destruct (positions_from_present 0 e rs.*1 Hnd (index_max_elem _ _ Hmax))
    as (q & Hq & _ & _).
  assert (q = 0%nat) as ->.
  { destruct (rs.*1) as [|y ys]; [discriminate|]. injection Hhd as ->.
    cbn [positions_from] in Hq. rewrite decide_True in Hq by done. by injection Hq as <-. }
  rewrite Hq. cbn. f_equal. apply drop_ge. rewrite length_take. lia.
Qed.

Section Order.
Context {num : Type} `{Number num}.

(** X13. A file listed newest first (strictly decreasing timestamps, two
    rows or more) and loaded without bounds fails with the no-data error:
    the slice from the minimum to the maximum runs by position, from the
    last row to the first, and holds nothing. *)
Theorem newest_first_file_has_no_data df r zone sf :
  StronglySorted (λ a b, b < a) (rows df).*1 → (2 ≤ length (rows df))%nat →
  (required ⊆ normalize_columns (columns df) → load_prices df None None r = Err NoData) ∧
  (is_Some (col_map (columns df) !! strip (lower zone)) →
     load_demand df None None r zone sf = Err NoData).
Proof.
  intros Hs Hlen.
  destruct (strictly_decreasing_facts _ Hs) as (_ & hd & lst & _ & Hmx & Hmn & Hlt);
    [by rewrite length_fmap|].
  pose proof (loc_slice_newest_first _ _ _ Hs Hlen Hmn Hmx) as Hslice.
  split.
  - intros Hreq. rewrite (load_prices_valid _ _ _ _ Hreq). cbn [resolve_start resolve_end].
    cbn zeta. rewrite Hmn, Hmx, Hslice. cbn [ts_gt]. by rewrite bool_decide_eq_false_2 by lia.
  - intros [sel Hsel]. rewrite (load_demand_valid _ _ _ _ _ _ _ Hsel).
    cbn [resolve_start resolve_end]. cbn zeta. rewrite Hmn, Hmx, Hslice. cbn [ts_gt].
    by rewrite bool_decide_eq_false_2 by lia.
Qed.

(** X14. A file that has a header but no rows is rejected: with the no-data
    error, or with the start-after-end error when both bounds are given
    and the start lies after the extended end. *)
Theorem file_without_rows df start end_ r zone sf :
  rows df = [] →
  let err := if ts_gt start (resolve_end end_ []) then StartAfterEnd else NoData in
  (required ⊆ normalize_columns (columns df) → load_prices df start end_ r = Err err) ∧
  (is_Some (col_map (columns df) !! strip (lower zone)) →
     load_demand df start end_ r zone sf = Err err).
Proof.
  intros Hrows. cbn zeta. split.
  - intros Hreq. rewrite (load_prices_valid _ _ _ _ Hreq). cbn zeta. rewrite Hrows.
    rewrite loc_slice_nil. cbn [fmap list_fmap].
    replace (resolve_start start []) with start by (by destruct start).
    by destruct (ts_gt _ _).
  - intros [sel Hsel]. rewrite (load_demand_valid _ _ _ _ _ _ _ Hsel). cbn zeta.
    rewrite Hrows, loc_slice_nil. cbn [fmap list_fmap].
    replace (resolve_start start []) with start by (by destruct start).
    by destruct (ts_gt _ _).
Qed.

End Order.

Lemma newest_first_file_has_no_data_witness :
  load_prices (num := Q) prices_newest_first None None MS = Err NoData.
Proof.
  assert (Hs : StronglySorted (λ a b, b < a) (rows prices_newest_first).*1)
    by decide_by_computation.
  assert (Hlen : (2 ≤ length (rows prices_newest_first))%nat) by (vm_compute; lia).
  assert (Hreq : required ⊆ normalize_columns (columns prices_newest_first))
    by decide_by_computation.
  exact (proj1 (newest_first_file_has_no_data (num := Q) prices_newest_first MS "" 0%Q Hs Hlen)
           Hreq).
Defined.

Lemma file_without_rows_witness :
  load_prices (num := Q) (with_rows prices_q1 []) None None MS = Err NoData ∧
  load_demand (num := Q) (with_rows demand_hourly []) (Some (mk_ts 2024 3 1 0))
    (Some (mk_ts 2024 1 1 0)) Hourly "DK_2" (1 # 2)%Q = Err StartAfterEnd.
Proof.
  assert (Hreq : required ⊆ normalize_columns (columns (with_rows prices_q1 [])))
    by decide_by_computation.
  assert (Hzone : is_Some (col_map (columns (with_rows demand_hourly [])) !! strip (lower "DK_2")))
    by (vm_compute; eauto).
  split.
  - exact (proj1 (file_without_rows (num := Q) (with_rows prices_q1 []) None None MS "" 0%Q
                    eq_refl) Hreq).
  - exact (proj2 (file_without_rows (num := Q) (with_rows demand_hourly [])
                    (Some (mk_ts 2024 3 1 0)) (Some (mk_ts 2024 1 1 0)) Hourly "DK_2" (1 # 2)%Q
                    eq_refl) Hzone).
Defined.

(** ** The lookup error *)

Lemma loc_slice_sorted_ok {A} s e (rs : list (Timestamp * A)) :
  is_monotonic_increasing rs.*1 = true → ∃ W, loc_slice s e rs = Ok W.
Proof.
  intros Hm. unfold loc_slice.
  destruct s as [s|], e as [e|]; rewrite ?get_slice_bound_sorted by exact Hm; cbn; eauto.
Qed.

Section KeyErrors.
Context {num : Type} `{Number num}.

(** X15. The loaders document [ValueError]s only, yet the slice can raise a
    [KeyError]; this happens only on a file whose timestamps are not in
    increasing order. *)
Theorem key_error_needs_unsorted_file df start end_ r zone sf err :
  load_prices df start end_ r = Err err ∨ load_demand df start end_ r zone sf = Err err →
  kind_of err = KeyError →
  is_monotonic_increasing (rows df).*1 = false.
Proof.
  intros Hok Hkind.
  destruct (is_monotonic_increasing (rows df).*1) eqn:Hm; [exfalso|reflexivity].
  destruct (loc_slice_sorted_ok (resolve_start start (rows df).*1)
              (resolve_end end_ (rows df).*1) (rows df) Hm) as [W HW].
  destruct Hok as [Hok|Hok].
  - destruct (decide (required ⊆ normalize_columns (columns df))) as [Hreq|Hreq].
    + rewrite (load_prices_valid _ _ _ _ Hreq) in Hok. cbn zeta in Hok.
      destruct (ts_gt _ _); [by injection Hok as <-|].
      rewrite HW in Hok. destruct W; [by injection Hok as <- | discriminate].
    + unfold load_prices in Hok.
      case_bool_decide; [by injection Hok as <-|].
      case_bool_decide as Hmiss; [by injection Hok as <-|].
      apply Hreq. intros c Hc.
      destruct (decide (c ∈ normalize_columns (columns df))) as [|Hn]; [done|].
      exfalso. exact (filter_nil_not_elem_of _ _ c Hmiss Hn Hc).
  - destruct (col_map (columns df) !! strip (lower zone)) as [sel|] eqn:Hsel.
    + rewrite (load_demand_valid _ _ _ _ _ _ _ Hsel) in Hok. cbn zeta in Hok.
      destruct (ts_gt _ _); [by injection Hok as <-|].
      rewrite HW in Hok. destruct W; [by injection Hok as <- | discriminate].
    + unfold load_demand in Hok.
      case_bool_decide; [by injection Hok as <-|].
      rewrite Hsel in Hok. by injection Hok as <-.
Qed.

End KeyErrors.

Lemma key_error_needs_unsorted_file_witness :
  load_prices (num := Q) prices_shuffled (Some (mk_ts 2024 1 15 0)) None MS = Err SliceKeyError ∧
  is_monotonic_increasing (rows prices_shuffled).*1 = false.
Proof.
  assert (Hok : load_prices (num := Q) prices_shuffled (Some (mk_ts 2024 1 15 0)) None MS
                = Err SliceKeyError) by (vm_compute; reflexivity).
  split; [exact Hok|].
  exact (key_error_needs_unsorted_file (num := Q) prices_shuffled (Some (mk_ts 2024 1 15 0))
           None MS "" 0%Q SliceKeyError (or_introl Hok) eq_refl).
Defined.
